(** * Setlist Builder + Sync: the setlist controller and the client slice

    A shallow embedding of
    - [backend/src/controllers/setlist.controller.js] (the Express handlers
      working on the Sequelize models [Setlist], [SetlistSong], [Block],
      [Song], [Band] and [BandMember]), and
    - [frontend/src/features/setlists/setlistsSlice.ts] (the Redux reducer),
    followed by the properties of the ordered-collection model, of the
    access rules and of the cascade on deletion.

    Conventions of the embedding.
    - Identifiers are JavaScript strings; a nullable column is an [option].
    - A table is the list of its rows, in storage order.  Where a query
      without ORDER BY can match several rows and the handler goes on with
      the row it got ([SetlistSong.findOne]), the choice of the database is
      an argument.
    - A handler takes the store and the request and returns the response
      (and the new store when it writes).  [try { .. } catch] around every
      handler turns a thrown exception into status 500, 'Server Error'.
    - Socket emissions do not read or write the store and are left out.
    - Timestamps are integers; the clock value [now] is an argument.
    - The controller requires [Setlist], [SetlistSong], [Song], [User],
      [Band], [Block], the three services and [io].  It also names
      [BandMember], [sequelize], [Op] and [UserIntegration], which it never
      binds: evaluating one of them throws a ReferenceError. *)

From Stdlib Require Import String List ZArith Bool Lia Sorted Permutation.
Import ListNotations.

Local Open Scope string_scope.
Local Open Scope list_scope.
Local Open Scope Z_scope.

(** ** JavaScript truthiness of the values the handlers test *)

(** [!!s] for a string: only the empty string is falsy. *)
Definition truthy (s : string) : bool := negb (s =? "")%string.

(** [!!v] for a value that is a string, [null] or [undefined]. *)
Definition truthy_opt (v : option string) : bool :=
  match v with
  | Some s => truthy s
  | None => false
  end.

(** [v || null] for such a value. *)
Definition or_null (v : option string) : option string :=
  match v with
  | Some s => if truthy s then Some s else None
  | None => None
  end.

(** [a === b] for two values that are strings or [null]. *)
Definition opt_eqb (a b : option string) : bool :=
  match a, b with
  | Some x, Some y => (x =? y)%string
  | None, None => true
  | _, _ => false
  end.

(** ** The models *)

Module Song.
Record t := mk { id : string; title : string; artist : string }.

Definition findByPk (pk : string) (tbl : list t) : option t :=
  find (fun s => (id s =? pk)%string) tbl.
End Song.

Module Band.
Record t := mk { id : string; name : string }.

Definition findByPk (pk : string) (tbl : list t) : option t :=
  find (fun b => (id b =? pk)%string) tbl.
End Band.

Module BandMember.
Record t := mk { band_id : string; user_id : string; role : string }.

(** The two queries on this model that the controller writes.  [BandMember]
    is not bound there, so no handler gets to run them; they tell which
    rows make a user a member, or an admin, of a band. *)

(** [findOne({ where: { band_id, user_id } })] *)
Definition findOne (bandId userId : string) (tbl : list t) : option t :=
  find (fun m => (band_id m =? bandId)%string && (user_id m =? userId)%string) tbl.

(** [findOne({ where: { band_id, user_id, role } })] *)
Definition findOne_role (bandId userId r : string) (tbl : list t) : option t :=
  find (fun m => (band_id m =? bandId)%string && (user_id m =? userId)%string
                 && (role m =? r)%string) tbl.
End BandMember.

Module Block.
Record t := mk { id : string; setlist_id : string; name : string; position : Z }.

Definition findByPk (pk : string) (tbl : list t) : option t :=
  find (fun b => (id b =? pk)%string) tbl.

(** [destroy({ where: { setlist_id } })] *)
Definition destroy_where_setlist (sid : string) (tbl : list t) : list t :=
  filter (fun b => negb (setlist_id b =? sid)%string) tbl.
End Block.

Module SetlistSong.
Record t := mk {
  id : string;
  setlist_id : string;
  song_id : string;
  position : Z;
  block_id : option string;
  notes : option string
}.

Definition findByPk (pk : string) (tbl : list t) : option t :=
  find (fun e => (id e =? pk)%string) tbl.

(** [findOne({ where: { setlist_id, song_id } })].  The query has no
    ORDER BY, so the database may answer with any of the matching rows:
    [pick] is the place, among the matching rows, of the one it returns
    (a place past the end stands for the first). *)
Definition findOne (pick : nat) (sid songId : string) (tbl : list t) : option t :=
  match filter (fun e => (setlist_id e =? sid)%string && (song_id e =? songId)%string) tbl with
  | [] => None
  | x :: rest => Some (nth pick (x :: rest) x)
  end.

(** [create(row)]: the row is appended. *)
Definition create (row : t) (tbl : list t) : list t := tbl ++ [row].

(** [instance.destroy()]: DELETE .. WHERE id = instance.id *)
Definition destroy (inst : t) (tbl : list t) : list t :=
  filter (fun e => negb (id e =? id inst)%string) tbl.

(** [destroy({ where: { setlist_id } })] *)
Definition destroy_where_setlist (sid : string) (tbl : list t) : list t :=
  filter (fun e => negb (setlist_id e =? sid)%string) tbl.

(** [update({ position, block_id }, { where: { id } })]: every row with
    that id gets the two columns; the other rows are left alone.  The
    [where] has no [setlist_id]. *)
Definition set_position_block (p : Z) (b : option string) (e : t) : t :=
  mk (id e) (setlist_id e) (song_id e) p b (notes e).

Definition update (p : Z) (b : option string) (pk : string) (tbl : list t) : list t :=
  map (fun e => if (id e =? pk)%string then set_position_block p b e else e) tbl.

(** ORDER BY position ASC.  The database promises no order among rows of
    equal position; this sort leaves them in storage order. *)
Fixpoint insert_by_position (e : t) (l : list t) : list t :=
  match l with
  | [] => [e]
  | x :: rest =>
      if position e <=? position x then e :: l
      else x :: insert_by_position e rest
  end.

Fixpoint order_by_position (l : list t) : list t :=
  match l with
  | [] => []
  | x :: rest => insert_by_position x (order_by_position rest)
  end.

(** [findAll({ where: { setlist_id }, order: [['position', 'ASC']] })] *)
Definition findAll_ordered (sid : string) (tbl : list t) : list t :=
  order_by_position (filter (fun e => (setlist_id e =? sid)%string) tbl).
End SetlistSong.

Module Setlist.
Record t := mk {
  id : string;
  name : string;
  description : option string;
  band_id : option string;
  created_by : string;
  is_public : bool;
  created_at : Z;
  updated_at : Z
}.

Definition findByPk (pk : string) (tbl : list t) : option t :=
  find (fun s => (id s =? pk)%string) tbl.

Definition set_updated_at (now : Z) (s : t) : t :=
  mk (id s) (name s) (description s) (band_id s) (created_by s) (is_public s)
     (created_at s) now.

(** [instance.save()].  When no attribute of the instance has changed
    ([changed] is false) no query is sent and the table stays as it is.
    Otherwise the row with the instance's id takes the instance's columns,
    stamped with the clock. *)
Definition save (changed : bool) (now : Z) (inst : t) (tbl : list t) : list t :=
  if changed
  then map (fun s => if (id s =? id inst)%string then set_updated_at now inst else s) tbl
  else tbl.

(** The instance after [save()]. *)
Definition saved (changed : bool) (now : Z) (inst : t) : t :=
  if changed then set_updated_at now inst else inst.

(** [instance.destroy()] *)
Definition destroy (inst : t) (tbl : list t) : list t :=
  filter (fun s => negb (id s =? id inst)%string) tbl.
End Setlist.

(** ** The store *)

Record DB := mkDB {
  setlists : list Setlist.t;
  setlist_songs : list SetlistSong.t;
  blocks : list Block.t;
  songs : list Song.t;
  bands : list Band.t;
  band_members : list BandMember.t
}.

Definition with_setlists (db : DB) (l : list Setlist.t) : DB :=
  mkDB l (setlist_songs db) (blocks db) (songs db) (bands db) (band_members db).

Definition with_setlist_songs (db : DB) (l : list SetlistSong.t) : DB :=
  mkDB (setlists db) l (blocks db) (songs db) (bands db) (band_members db).

Definition with_blocks (db : DB) (l : list Block.t) : DB :=
  mkDB (setlists db) (setlist_songs db) l (songs db) (bands db) (band_members db).

(** ** Responses *)

Inductive body :=
| JMsg (msg : string)                       (* res.json({ msg }) *)
| JErrors                                   (* res.json({ errors: errors.array() }) *)
| SendText (txt : string)                   (* res.send(txt) *)
| JSetlist (s : Setlist.t)
| JSetlistDetail (s : Setlist.t) (members : option (list string))
                 (bs : list (Block.t * list SetlistSong.t))
| JSetlistSongs (l : list SetlistSong.t)
| JSetlistSong (e : option SetlistSong.t)
| SendPdf (bytes : string)
| JExternal (payload : string).

Record response := mkResponse { status : Z; payload : body }.

Definition ok (b : body) : response := mkResponse 200 b.
Definition server_error : response := mkResponse 500 (SendText "Server Error").

(** The error taxonomy, read off the status code. *)
Inductive error_kind := InvalidInput | PermissionDenied | NotFound | ServerError.

Definition error_of (r : response) : option error_kind :=
  if status r =? 400 then Some InvalidInput
  else if status r =? 403 then Some PermissionDenied
  else if status r =? 404 then Some NotFound
  else if status r =? 500 then Some ServerError
  else None.

(** ** The controller *)

(** The exception thrown when an identifier that is not bound is
    evaluated.  An [option] result of a test stands for "throws" when it is
    [None]. *)
Definition ReferenceError {A : Type} : option A := None.

(** [isUserBandMember(userId, bandId)]: [false] for a falsy [bandId];
    otherwise the helper evaluates [BandMember.findOne(..)], and
    [BandMember] is not bound in the controller. *)
Definition isUserBandMember (db : DB) (userId : string) (bandId : option string)
  : option bool :=
  match bandId with
  | Some b => if truthy b then ReferenceError else Some false
  | None => Some false
  end.

(** The [band] association loaded by [include]: [null] when the setlist has
    no band row to join, otherwise the band with the ids of its members. *)
Definition include_band (db : DB) (s : Setlist.t) : option (list string) :=
  match Setlist.band_id s with
  | Some b =>
      match Band.findByPk b (bands db) with
      | Some _ =>
          Some (map BandMember.user_id
                  (filter (fun m => (BandMember.band_id m =? b)%string) (band_members db)))
      | None => None
      end
  | None => None
  end.

(** The [blocks] association with the songs of each block. *)
Definition include_blocks (db : DB) (s : Setlist.t) : list (Block.t * list SetlistSong.t) :=
  map (fun b =>
         (b, filter (fun e => opt_eqb (SetlistSong.block_id e) (Some (Block.id b)))
               (setlist_songs db)))
      (filter (fun b => (Block.setlist_id b =? Setlist.id s)%string) (blocks db)).

(** [hasAccess] of [getSetlistById]: [created_by === user || is_public ||
    band.members.some(..)].  The third operand is only evaluated when the
    first two are false, and reading [.members] of a [null] band throws:
    [None] stands for that exception. *)
Definition hasAccess_byId (db : DB) (user : string) (s : Setlist.t) : option bool :=
  if (Setlist.created_by s =? user)%string then Some true
  else if Setlist.is_public s then Some true
  else match include_band db s with
       | Some members => Some (existsb (fun m => (m =? user)%string) members)
       | None => None
       end.

Definition getSetlistById (db : DB) (user id : string) : response :=
  match Setlist.findByPk id (setlists db) with
  | None => mkResponse 404 (JMsg "Setlist not found")
  | Some setlist =>
      match hasAccess_byId db user setlist with
      | None => server_error
      | Some false => mkResponse 403 (JMsg "Access denied")
      | Some true =>
          ok (JSetlistDetail setlist (include_band db setlist) (include_blocks db setlist))
      end
  end.

(** [getAllSetlists]: the [where] of the query is built with [Op.or], and
    [Op] is not bound in the controller; the handler throws before the
    query is sent. *)
Definition getAllSetlists (db : DB) (user : string) : response := server_error.

(** [hasAccess] of the other read handlers: [created_by === user ||
    is_public || await isUserBandMember(..)], the helper being called only
    when the first two operands are false. *)
Definition hasAccess (db : DB) (user : string) (s : Setlist.t) : option bool :=
  if (Setlist.created_by s =? user)%string then Some true
  else if Setlist.is_public s then Some true
  else isUserBandMember db user (Setlist.band_id s).

(** The permission test of [updateSetlist] and [deleteSetlist]: [Some true]
    when the handler answers 403.  For an actor who is not the creator of
    a setlist with a band the test evaluates [BandMember.findOne(..)]. *)
Definition admin_denied (db : DB) (user : string) (s : Setlist.t) : option bool :=
  if negb (Setlist.created_by s =? user)%string then
    if truthy_opt (Setlist.band_id s) then ReferenceError else Some true
  else Some false.

(** The permission test of the entry-level handlers and of
    [generateShareLink]: [created_by !== user && !await
    isUserBandMember(..)]; [Some true] when the handler answers 403. *)
Definition member_denied (db : DB) (user : string) (s : Setlist.t) : option bool :=
  if negb (Setlist.created_by s =? user)%string then
    match isUserBandMember db user (Setlist.band_id s) with
    | Some m => Some (negb m)
    | None => None
    end
  else Some false.

(** The body of [PUT /:id]: [name] is tested for truthiness, the other two
    against [undefined] ([description] may be [null]; [is_public], when
    given, is taken to be a boolean). *)
Record UpdateBody := mkUpdateBody {
  ub_name : option string;
  ub_description : option (option string);
  ub_is_public : option bool
}.

Definition apply_update_fields (b : UpdateBody) (s : Setlist.t) : Setlist.t :=
  Setlist.mk (Setlist.id s)
    (if truthy_opt (ub_name b)
     then match ub_name b with Some n => n | None => Setlist.name s end
     else Setlist.name s)
    (match ub_description b with Some d => d | None => Setlist.description s end)
    (Setlist.band_id s)
    (Setlist.created_by s)
    (match ub_is_public b with Some p => p | None => Setlist.is_public s end)
    (Setlist.created_at s)
    (Setlist.updated_at s).

(** An attribute counts as changed when its new value differs from the
    one that was read. *)
Definition name_changed (inst s : Setlist.t) : bool :=
  negb (Setlist.name inst =? Setlist.name s)%string.

Definition attributes_changed (inst s : Setlist.t) : bool :=
  name_changed inst s
  || negb (opt_eqb (Setlist.description inst) (Setlist.description s))
  || negb (Bool.eqb (Setlist.is_public inst) (Setlist.is_public s)).

(** The body of [POST /]; the route checks [name] with [notEmpty()]. *)
Record CreateBody := mkCreateBody {
  cb_name : option string;
  cb_description : option string;
  cb_band_id : option string;
  cb_is_public : option bool
}.

(** [Setlist.create(row)] once the row is valid: [id] is declared the
    primary key of the model, so the insert of a stored id throws
    ([None]). *)
Definition Setlist_create (row : Setlist.t) (tbl : list Setlist.t) : option (list Setlist.t) :=
  match Setlist.findByPk (Setlist.id row) tbl with
  | Some _ => None
  | None => Some (tbl ++ [row])
  end.

(** The ids of [band.members] as [Band.findByPk] loads them. *)
Definition band_member_ids (db : DB) (b : string) : list string :=
  map BandMember.user_id
    (filter (fun m => (BandMember.band_id m =? b)%string) (band_members db)).

(** The test on [band_id] of [createSetlist]: the answer that ends the
    handler, if any. *)
Definition create_band_check (db : DB) (user : string) (band_id : option string)
  : option response :=
  match band_id with
  | Some b =>
      if truthy b then
        match Band.findByPk b (bands db) with
        | None => Some (mkResponse 404 (JMsg "Band not found"))
        | Some _ =>
            if existsb (fun m => (m =? user)%string) (band_member_ids db b) then None
            else Some (mkResponse 403
                         (JMsg "You must be a member of the band to create a setlist"))
        end
      else None
  | None => None
  end.

Section ModelValidation.

(** What [Setlist.create] and [save] accept as a name.  The model declares
    the validator [notEmpty] on [name] ([validate: { notEmpty: true }]);
    Sequelize runs it on [create] and, for a changed name, on [save], and
    a failing validation throws.  The validator is a parameter: what
    follows holds whatever it refuses, a name wider than the column
    included. *)
Variable notEmpty : string -> bool.

Definition createSetlist (db : DB) (user : string) (b : CreateBody) (uuid : string)
           (now : Z) : response * DB :=
  if negb (truthy_opt (cb_name b)) then (mkResponse 400 JErrors, db)
  else
    match create_band_check db user (cb_band_id b) with
    | Some r => (r, db)
    | None =>
        let newSetlist :=
          Setlist.mk uuid
            (match cb_name b with Some n => n | None => "" end)
            (cb_description b)
            (or_null (cb_band_id b))
            user
            (match cb_is_public b with Some p => p | None => false end)
            now now in
        if negb (notEmpty (Setlist.name newSetlist)) then (server_error, db)
        else
          match Setlist_create newSetlist (setlists db) with
          | None => (server_error, db)
          | Some tbl => (mkResponse 201 (JSetlist newSetlist), with_setlists db tbl)
          end
    end.

Definition updateSetlist (db : DB) (user id : string) (b : UpdateBody) (now : Z)
  : response * DB :=
  match Setlist.findByPk id (setlists db) with
  | None => (mkResponse 404 (JMsg "Setlist not found"), db)
  | Some setlist =>
      match admin_denied db user setlist with
      | None => (server_error, db)
      | Some true =>
          (mkResponse 403 (JMsg "You do not have permission to update this setlist"), db)
      | Some false =>
          let setlist' := apply_update_fields b setlist in
          let changed := attributes_changed setlist' setlist in
          if name_changed setlist' setlist && negb (notEmpty (Setlist.name setlist'))
          then (server_error, db)
          else
            (ok (JSetlist (Setlist.saved changed now setlist')),
             with_setlists db (Setlist.save changed now setlist' (setlists db)))
      end
  end.

End ModelValidation.

(** The two [destroy({ where: { setlist_id } })] calls of [deleteSetlist],
    songs first, then blocks. *)
Definition delete_children (db : DB) (setlistId : string) : DB :=
  let db1 := with_setlist_songs db
               (SetlistSong.destroy_where_setlist setlistId (setlist_songs db)) in
  with_blocks db1 (Block.destroy_where_setlist setlistId (blocks db1)).

Definition deleteSetlist (db : DB) (user id : string) : response * DB :=
  match Setlist.findByPk id (setlists db) with
  | None => (mkResponse 404 (JMsg "Setlist not found"), db)
  | Some setlist =>
      match admin_denied db user setlist with
      | None => (server_error, db)
      | Some true =>
          (mkResponse 403 (JMsg "You do not have permission to delete this setlist"), db)
      | Some false =>
          let db2 := delete_children db (Setlist.id setlist) in
          (ok (JMsg "Setlist deleted"),
           with_setlists db2 (Setlist.destroy setlist (setlists db2)))
      end
  end.

Definition getSetlistSongs (db : DB) (user id : string) : response :=
  match Setlist.findByPk id (setlists db) with
  | None => mkResponse 404 (JMsg "Setlist not found")
  | Some setlist =>
      match hasAccess db user setlist with
      | None => server_error
      | Some false => mkResponse 403 (JMsg "Access denied")
      | Some true => ok (JSetlistSongs (SetlistSong.findAll_ordered id (setlist_songs db)))
      end
  end.

(** [setlist.changed('updated_at', true); await setlist.save()] *)
Definition touch (db : DB) (setlist : Setlist.t) (now : Z) : DB :=
  with_setlists db (Setlist.save true now setlist (setlists db)).

(** The body of [POST /:id/songs].  [ab_position] is [None] when the field
    is missing or is not an integer. *)
Record AddBody := mkAddBody {
  ab_song_id : option string;
  ab_position : option Z;
  ab_block_id : option string;
  ab_notes : option string
}.

(** The rejection of an unknown or foreign block in [addSongToSetlist]. *)
Definition invalid_block (db : DB) (id : string) (block_id : option string) : bool :=
  match block_id with
  | Some b =>
      if truthy b then
        match Block.findByPk b (blocks db) with
        | None => true
        | Some block => negb (Block.setlist_id block =? id)%string
        end
      else false
  | None => false
  end.

Section Validated.

(** [isUUID] of express-validator, which the route puts on [song_id]. *)
Variable isUUID : string -> bool.

(** [validationResult(req)] for the checks of the route:
    [check('song_id').isUUID()] and [check('position').isInt()].  The
    answer holds the two validated fields when there is no error. *)
Definition validate_add (b : AddBody) : option (string * Z) :=
  match ab_song_id b, ab_position b with
  | Some s, Some p => if isUUID s then Some (s, p) else None
  | _, _ => None
  end.

(** [uuid] is the value [uuidv4()] gives in this call. *)
Definition addSongToSetlist (db : DB) (user id : string) (b : AddBody)
           (uuid : string) (now : Z) : response * DB :=
  match validate_add b with
  | None => (mkResponse 400 JErrors, db)
  | Some (song_id, position) =>
      match Setlist.findByPk id (setlists db) with
      | None => (mkResponse 404 (JMsg "Setlist not found"), db)
      | Some setlist =>
          match member_denied db user setlist with
          | None => (server_error, db)
          | Some true =>
              (mkResponse 403 (JMsg "You do not have permission to update this setlist"),
               db)
          | Some false =>
              match Song.findByPk song_id (songs db) with
              | None => (mkResponse 404 (JMsg "Song not found"), db)
              | Some _ =>
                  if invalid_block db id (ab_block_id b) then
                    (mkResponse 400 (JMsg "Invalid block ID"), db)
                  else
                    let row := SetlistSong.mk uuid id song_id position
                                 (or_null (ab_block_id b)) (or_null (ab_notes b)) in
                    let db1 := with_setlist_songs db
                                 (SetlistSong.create row (setlist_songs db)) in
                    let db2 := touch db1 setlist now in
                    (mkResponse 201
                       (JSetlistSong (SetlistSong.findByPk uuid (setlist_songs db2))),
                     db2)
              end
          end
      end
  end.

End Validated.

(** [pick] is the choice of the database in [SetlistSong.findOne]. *)
Definition removeSongFromSetlist (db : DB) (user id songId : string) (pick : nat) (now : Z)
  : response * DB :=
  match Setlist.findByPk id (setlists db) with
  | None => (mkResponse 404 (JMsg "Setlist not found"), db)
  | Some setlist =>
      match member_denied db user setlist with
      | None => (server_error, db)
      | Some true =>
          (mkResponse 403 (JMsg "You do not have permission to update this setlist"), db)
      | Some false =>
          match SetlistSong.findOne pick id songId (setlist_songs db) with
          | None => (mkResponse 404 (JMsg "Song not found in setlist"), db)
          | Some setlistSong =>
              let db1 := with_setlist_songs db
                           (SetlistSong.destroy setlistSong (setlist_songs db)) in
              (ok (JMsg "Song removed from setlist"), touch db1 setlist now)
          end
      end
  end.

(** *** Reordering *)

(** One element of [req.body.songs]: [{ id, position, block_id? }]. *)
Record ReorderUpdate := mkReorderUpdate {
  ru_id : string;
  ru_position : Z;
  ru_block_id : option string
}.

(** An element of the array is such an object or [null]; reading
    [song.position] of [null] throws. *)
Inductive reorder_item :=
| ItemNull
| ItemObj (u : ReorderUpdate).

(** [req.body.songs]: falsy ([undefined], [null], ..), a truthy value that
    is not an array, or an array. *)
Inductive songs_field :=
| SongsFalsy
| SongsNotArray
| SongsArray (items : list reorder_item).

(** [!songs || !Array.isArray(songs) || songs.length === 0] *)
Definition songs_rejected (f : songs_field) : bool :=
  match f with
  | SongsFalsy => true
  | SongsNotArray => true
  | SongsArray items => (length items =? 0)%nat
  end.

Definition items_of (f : songs_field) : list reorder_item :=
  match f with
  | SongsArray items => items
  | _ => []
  end.

(** One [SetlistSong.update] of the loop. *)
Definition apply_update (u : ReorderUpdate) (tbl : list SetlistSong.t) : list SetlistSong.t :=
  SetlistSong.update (ru_position u) (or_null (ru_block_id u)) (ru_id u) tbl.

(** [for (const song of songs) { await SetlistSong.update(..) }]; [None]
    when an iteration throws. *)
Fixpoint reorder_loop (items : list reorder_item) (tbl : list SetlistSong.t)
  : option (list SetlistSong.t) :=
  match items with
  | [] => Some tbl
  | ItemNull :: _ => None
  | ItemObj u :: rest => reorder_loop rest (apply_update u tbl)
  end.

(** The function handed to the transaction: the loop, then the stamp on
    the setlist. *)
Definition reorder_callback (setlist : Setlist.t) (items : list reorder_item) (now : Z)
           (t : DB) : option DB :=
  match reorder_loop items (setlist_songs t) with
  | Some tbl => Some (touch (with_setlist_songs t tbl) setlist now)
  | None => None
  end.

(** [await sequelize.transaction(callback)]: [sequelize] is not bound in
    the controller, so evaluating the callee throws before the callback is
    called; nothing is written. *)
Definition transaction (db : DB) (callback : DB -> option DB) : option unit * DB :=
  (ReferenceError, db).

Definition reorderSetlistSongs (db : DB) (user id : string) (songs_body : songs_field)
           (now : Z) : response * DB :=
  if songs_rejected songs_body then
    (mkResponse 400 (JMsg "Songs array is required"), db)
  else
    match Setlist.findByPk id (setlists db) with
    | None => (mkResponse 404 (JMsg "Setlist not found"), db)
    | Some setlist =>
        match member_denied db user setlist with
        | None => (server_error, db)
        | Some true =>
            (mkResponse 403 (JMsg "You do not have permission to update this setlist"), db)
        | Some false =>
            match transaction db (reorder_callback setlist (items_of songs_body) now) with
            | (None, db') => (server_error, db')
            | (Some _, db') =>
                (ok (JSetlistSongs (SetlistSong.findAll_ordered id (setlist_songs db'))),
                 db')
            end
        end
    end.

(** *** Export and sharing *)

(** [getUserSpotifyToken(userId)] evaluates [UserIntegration.findOne(..)],
    and [UserIntegration] is not bound in the controller. *)
Definition getUserSpotifyToken (db : DB) (userId : string) : option (option string) :=
  ReferenceError.

Section Services.

(** [PDFService.generateSetlistPDF]; [None] when it throws. *)
Variable generateSetlistPDF : Setlist.t -> list SetlistSong.t -> option string.

(** [ShareService.generateShareLink]; [None] when it throws. *)
Variable generateShareLink_service : string -> Z -> bool -> string -> option string.

(** What the handler answers once it has a Spotify token, by the outcome
    of [SpotifyService.createPlaylistFromSetlist] called with the token,
    the name of the playlist, the setlist and its songs. *)
Variable createPlaylistFromSetlist :
  string -> string -> Setlist.t -> list SetlistSong.t -> response.

Definition exportSetlistToPDF (db : DB) (user id : string) : response :=
  match Setlist.findByPk id (setlists db) with
  | None => mkResponse 404 (JMsg "Setlist not found")
  | Some setlist =>
      match hasAccess db user setlist with
      | None => server_error
      | Some false => mkResponse 403 (JMsg "Access denied")
      | Some true =>
          match generateSetlistPDF setlist
                  (SetlistSong.findAll_ordered id (setlist_songs db)) with
          | Some pdf => ok (SendPdf pdf)
          | None => server_error
          end
      end
  end.

(** [playlist_name] is the field the route checks with [notEmpty()].  Past
    the access test the handler reads the songs and asks for the Spotify
    token of the user; when that throws, the message of the exception
    does not hold 'Spotify API', and the [catch] answers 500. *)
Definition exportSetlistToSpotify (db : DB) (user id : string)
           (playlist_name : option string) : response :=
  if negb (truthy_opt playlist_name) then mkResponse 400 JErrors
  else
    match Setlist.findByPk id (setlists db) with
    | None => mkResponse 404 (JMsg "Setlist not found")
    | Some setlist =>
        match hasAccess db user setlist with
        | None => server_error
        | Some false => mkResponse 403 (JMsg "Access denied")
        | Some true =>
            let setlistSongs := SetlistSong.findAll_ordered id (setlist_songs db) in
            match getUserSpotifyToken db user with
            | None => server_error
            | Some None =>
                mkResponse 401
                  (JMsg "Spotify account not connected. Please connect your Spotify account in settings.")
            | Some (Some spotifyToken) =>
                createPlaylistFromSetlist spotifyToken
                  (match playlist_name with Some n => n | None => "" end)
                  setlist setlistSongs
            end
        end
    end.

Definition generateShareLink (db : DB) (user id : string) (expiry : Z) (read_only : bool)
  : response :=
  match Setlist.findByPk id (setlists db) with
  | None => mkResponse 404 (JMsg "Setlist not found")
  | Some setlist =>
      match member_denied db user setlist with
      | None => server_error
      | Some true =>
          mkResponse 403 (JMsg "You do not have permission to share this setlist")
      | Some false =>
          match generateShareLink_service id expiry read_only user with
          | Some link => ok (JExternal link)
          | None => server_error
          end
      end
  end.

End Services.

(** *** Sequences of entry mutations *)

Inductive entry_op :=
| AddEntry (user : string) (b : AddBody) (uuid : string) (now : Z)
| RemoveEntry (user : string) (songId : string) (pick : nat) (now : Z)
| ReorderEntries (user : string) (songs_body : songs_field) (now : Z).

Definition run_op (isUUID : string -> bool) (id : string) (db : DB) (o : entry_op) : DB :=
  match o with
  | AddEntry user b uuid now => snd (addSongToSetlist isUUID db user id b uuid now)
  | RemoveEntry user songId pick now =>
      snd (removeSongFromSetlist db user id songId pick now)
  | ReorderEntries user songs_body now => snd (reorderSetlistSongs db user id songs_body now)
  end.

Definition run_ops (isUUID : string -> bool) (id : string) (ops : list entry_op) (db : DB)
  : DB :=
  fold_left (run_op isUUID id) ops db.

(** ** The client slice *)

Module Slice.

(** The [SetlistSong] of the client, without the embedded [song] and the
    two dates. *)
Record SetlistSong := mkSetlistSong {
  id : string;
  setlist_id : string;
  song_id : string;
  position : Z;
  block_id : option string;
  notes : option string
}.

Record Setlist := mkSetlist {
  sl_id : string;
  sl_name : string;
  sl_band_id : option string;
  sl_created_by : string;
  sl_is_public : bool
}.

Record SetlistsState := mkState {
  setlists : list Setlist;
  currentSetlist : option Setlist;
  setlistSongs : list SetlistSong;
  isLoading : bool;
  error : option string
}.

Definition initialState : SetlistsState := mkState [] None [] false None.

(** The three life-cycle actions of a thunk. *)
Inductive phase (A : Type) :=
| pending
| fulfilled (payload : A)
| rejected (payload : string).
Arguments pending {A}.
Arguments fulfilled {A} payload.
Arguments rejected {A} payload.

Inductive action :=
| clearCurrentSetlist
| resetSetlistsState
| fetchSetlists (p : phase (list Setlist))
| fetchSetlistById (p : phase Setlist)
| fetchSetlistSongs (p : phase (list SetlistSong))
| createSetlist (p : phase Setlist)
| updateSetlist (p : phase Setlist)
| deleteSetlist (p : phase string)
| addSongToSetlist (p : phase SetlistSong)
| removeSongFromSetlist (p : phase (string * string))   (* { setlist_id, song_id } *)
| reorderSetlistSongs (p : phase (list SetlistSong)).

Definition set_pending (s : SetlistsState) : SetlistsState :=
  mkState (setlists s) (currentSetlist s) (setlistSongs s) true None.

Definition set_rejected (s : SetlistsState) (e : string) : SetlistsState :=
  mkState (setlists s) (currentSetlist s) (setlistSongs s) false (Some e).

(** [state.setlistSongs.sort((a, b) => a.position - b.position)]; the
    sort of an array is stable. *)
Fixpoint insert_sorted (e : SetlistSong) (l : list SetlistSong) : list SetlistSong :=
  match l with
  | [] => [e]
  | x :: rest =>
      if position e <=? position x then e :: l else x :: insert_sorted e rest
  end.

Fixpoint sort_by_position (l : list SetlistSong) : list SetlistSong :=
  match l with
  | [] => []
  | x :: rest => insert_sorted x (sort_by_position rest)
  end.

(** [state.setlists[index] = payload] at the first index whose id is the
    payload's. *)
Fixpoint replace_first (p : Setlist) (l : list Setlist) : list Setlist :=
  match l with
  | [] => []
  | x :: rest =>
      if (sl_id x =? sl_id p)%string then p :: rest else x :: replace_first p rest
  end.

(** [state.currentSetlist?.id === id] *)
Definition current_is (s : SetlistsState) (i : string) : bool :=
  match currentSetlist s with
  | Some c => (sl_id c =? i)%string
  | None => false
  end.

Definition reducer (s : SetlistsState) (a : action) : SetlistsState :=
  match a with
  | clearCurrentSetlist => mkState (setlists s) None [] (isLoading s) (error s)
  | resetSetlistsState => mkState [] None [] false None
  | fetchSetlists pending | fetchSetlistById pending | fetchSetlistSongs pending
  | createSetlist pending | updateSetlist pending | deleteSetlist pending
  | addSongToSetlist pending | removeSongFromSetlist pending
  | reorderSetlistSongs pending => set_pending s
  | fetchSetlists (rejected e) | fetchSetlistById (rejected e)
  | fetchSetlistSongs (rejected e) | createSetlist (rejected e)
  | updateSetlist (rejected e) | deleteSetlist (rejected e)
  | addSongToSetlist (rejected e) | removeSongFromSetlist (rejected e)
  | reorderSetlistSongs (rejected e) => set_rejected s e
  | fetchSetlists (fulfilled l) =>
      mkState l (currentSetlist s) (setlistSongs s) false (error s)
  | fetchSetlistById (fulfilled c) =>
      mkState (setlists s) (Some c) (setlistSongs s) false (error s)
  | fetchSetlistSongs (fulfilled l) =>
      mkState (setlists s) (currentSetlist s) l false (error s)
  | createSetlist (fulfilled c) =>
      mkState (setlists s ++ [c]) (currentSetlist s) (setlistSongs s) false (error s)
  | updateSetlist (fulfilled c) =>
      mkState (replace_first c (setlists s))
        (if current_is s (sl_id c) then Some c else currentSetlist s)
        (setlistSongs s) false (error s)
  | deleteSetlist (fulfilled i) =>
      let kept := filter (fun x => negb (sl_id x =? i)%string) (setlists s) in
      if current_is s i then mkState kept None [] false (error s)
      else mkState kept (currentSetlist s) (setlistSongs s) false (error s)
  | addSongToSetlist (fulfilled e) =>
      mkState (setlists s) (currentSetlist s)
        (sort_by_position (setlistSongs s ++ [e])) false (error s)
  | removeSongFromSetlist (fulfilled (_, songId)) =>
      mkState (setlists s) (currentSetlist s)
        (filter (fun x => negb (song_id x =? songId)%string) (setlistSongs s))
        false (error s)
  | reorderSetlistSongs (fulfilled l) =>
      mkState (setlists s) (currentSetlist s) l false (error s)
  end.

End Slice.

(** * Specification-side definitions and fixtures *)

(** Ascending entry position. *)
Definition position_le (a b : SetlistSong.t) : Prop :=
  SetlistSong.position a <= SetlistSong.position b.

(** ** Fixtures *)

Definition songA : Song.t := Song.mk "songA" "A" "artist".
Definition songB : Song.t := Song.mk "songB" "B" "artist".

(** A private setlist of user U1 without a band. *)
Definition S1 : Setlist.t := Setlist.mk "S1" "Gig" None None "U1" false 0 0.

(** Two blocks of S1: "Set 1" is played before "Encore". *)
Definition B1 : Block.t := Block.mk "B1" "S1" "Set 1" 1.
Definition B2 : Block.t := Block.mk "B2" "S1" "Encore" 2.

Definition db_blocks : DB := mkDB [S1] [] [B1; B2] [songA; songB] [] [].

Definition any_uuid (s : string) : bool := true.

(** ** The order of [listEntries] *)

(** The order of the specification: entries in the order of their blocks'
    positions, and by entry position inside a block.  The position of the
    block of an entry is looked up in the [blocks] table; entries without
    a block come first. *)
Definition spec_block_position (db : DB) (e : SetlistSong.t) : option Z :=
  match SetlistSong.block_id e with
  | Some b => option_map Block.position (Block.findByPk b (blocks db))
  | None => None
  end.

Definition spec_entry_le (db : DB) (a b : SetlistSong.t) : Prop :=
  match spec_block_position db a, spec_block_position db b with
  | None, None => SetlistSong.position a <= SetlistSong.position b
  | None, Some _ => True
  | Some _, None => False
  | Some pa, Some pb =>
      pa < pb \/ (pa = pb /\ SetlistSong.position a <= SetlistSong.position b)
  end.

Definition spec_listEntries_order (db : DB) (l : list SetlistSong.t) : Prop :=
  StronglySorted (spec_entry_le db) l.

(** The store after [addEntry(S1, songA, 1, Encore)] and
    [addEntry(S1, songB, 2, Set 1)]. *)
Definition db_two_blocks : DB :=
  run_ops any_uuid "S1"
    [AddEntry "U1" (mkAddBody (Some "songA") (Some 1) (Some "B2") None) "E1" 10;
     AddEntry "U1" (mkAddBody (Some "songB") (Some 2) (Some "B1") None) "E2" 11]
    db_blocks.

(** ** The operations on one setlist *)

(** The requests the router sends to the controller for a path under
    [/:id]. *)
Inductive request :=
| GetSetlistById
| UpdateSetlist (b : UpdateBody) (now : Z)
| DeleteSetlist
| GetSetlistSongs
| AddSongToSetlist (b : AddBody) (uuid : string) (now : Z)
| RemoveSongFromSetlist (songId : string) (pick : nat) (now : Z)
| ReorderSetlistSongs (songs_body : songs_field) (now : Z)
| ExportSetlistToPDF
| ExportSetlistToSpotify (playlist_name : option string)
| GenerateShareLink (expiry : Z) (read_only : bool).

Section Router.

Variable isUUID : string -> bool.
Variable notEmpty : string -> bool.
Variable generateSetlistPDF : Setlist.t -> list SetlistSong.t -> option string.
Variable generateShareLink_service : string -> Z -> bool -> string -> option string.
Variable createPlaylistFromSetlist :
  string -> string -> Setlist.t -> list SetlistSong.t -> response.

Definition dispatch (db : DB) (user id : string) (req : request) : response * DB :=
  match req with
  | GetSetlistById => (getSetlistById db user id, db)
  | UpdateSetlist b now => updateSetlist notEmpty db user id b now
  | DeleteSetlist => deleteSetlist db user id
  | GetSetlistSongs => (getSetlistSongs db user id, db)
  | AddSongToSetlist b uuid now => addSongToSetlist isUUID db user id b uuid now
  | RemoveSongFromSetlist songId pick now =>
      removeSongFromSetlist db user id songId pick now
  | ReorderSetlistSongs songs_body now => reorderSetlistSongs db user id songs_body now
  | ExportSetlistToPDF => (exportSetlistToPDF generateSetlistPDF db user id, db)
  | ExportSetlistToSpotify playlist_name =>
      (exportSetlistToSpotify createPlaylistFromSetlist db user id playlist_name, db)
  | GenerateShareLink expiry read_only =>
      (generateShareLink generateShareLink_service db user id expiry read_only, db)
  end.

(** The requests a handler answers with 400 before it looks at the
    setlist: failed route checks, and the test on [songs] of the reorder. *)
Definition rejected_on_input (req : request) : bool :=
  match req with
  | AddSongToSetlist b _ _ =>
      match validate_add isUUID b with Some _ => false | None => true end
  | ReorderSetlistSongs songs_body _ => songs_rejected songs_body
  | ExportSetlistToSpotify playlist_name => negb (truthy_opt playlist_name)
  | _ => false
  end.

End Router.

(** ** Actors *)

(** [user] has no membership row in the band of [s]. *)
Definition not_member (db : DB) (user : string) (s : Setlist.t) : Prop :=
  forall b, Setlist.band_id s = Some b ->
            BandMember.findOne b user (band_members db) = None.

(** Neither creator, nor band member, nor looking at a public setlist. *)
Definition outsider (db : DB) (user : string) (s : Setlist.t) : Prop :=
  Setlist.created_by s <> user /\ not_member db user s /\ Setlist.is_public s = false.

(** [user] has a membership row with role [r] in band [band]. *)
Definition has_role (db : DB) (user band r : string) : Prop :=
  exists m, In m (band_members db)
            /\ BandMember.band_id m = band
            /\ BandMember.user_id m = user
            /\ BandMember.role m = r.

(** ** Reordering *)

(** The updates of a list of objects, one after the other. *)
Definition apply_updates (us : list ReorderUpdate) (tbl : list SetlistSong.t)
  : list SetlistSong.t :=
  fold_left (fun t u => apply_update u t) us tbl.

(** The effect of one update, and of a list of updates, on one row. *)
Definition apply_update_row (u : ReorderUpdate) (e : SetlistSong.t) : SetlistSong.t :=
  if (SetlistSong.id e =? ru_id u)%string
  then SetlistSong.set_position_block (ru_position u) (or_null (ru_block_id u)) e
  else e.

Definition apply_updates_row (us : list ReorderUpdate) (e : SetlistSong.t) : SetlistSong.t :=
  fold_left (fun x u => apply_update_row u x) us e.

(** The objects of an array without [null] elements. *)
Fixpoint objects_of (items : list reorder_item) : option (list ReorderUpdate) :=
  match items with
  | [] => Some []
  | ItemNull :: _ => None
  | ItemObj u :: rest => option_map (cons u) (objects_of rest)
  end.

(** The columns of an entry that no reorder writes. *)
Definition same_frame (x y : SetlistSong.t) : Prop :=
  SetlistSong.id x = SetlistSong.id y
  /\ SetlistSong.setlist_id x = SetlistSong.setlist_id y
  /\ SetlistSong.song_id x = SetlistSong.song_id y
  /\ SetlistSong.notes x = SetlistSong.notes y.

(** [u] names no entry of setlist [id]: no stored entry has that id, or
    the entry with that id belongs to another setlist. *)
Definition foreign_update (db : DB) (id : string) (u : ReorderUpdate) : Prop :=
  forall e, In e (setlist_songs db) -> SetlistSong.id e = ru_id u ->
            SetlistSong.setlist_id e <> id.

(** ** More fixtures *)

Definition E1 : SetlistSong.t := SetlistSong.mk "E1" "S1" "songA" 1 None None.
Definition E2 : SetlistSong.t := SetlistSong.mk "E2" "S1" "songB" 2 None None.

(** S1 with songA then songB. *)
Definition db_entries : DB := mkDB [S1] [E1; E2] [] [songA; songB] [] [].

(** A private setlist of U1 for the band "band1"; U2 is a plain member and
    U3 an admin of the band.  The song songA is on it twice. *)
Definition S2 : Setlist.t := Setlist.mk "S2" "Tour" None (Some "band1") "U1" false 0 0.
Definition F1 : SetlistSong.t := SetlistSong.mk "F1" "S2" "songA" 1 None None.
Definition F2 : SetlistSong.t := SetlistSong.mk "F2" "S2" "songB" 2 None None.
Definition F3 : SetlistSong.t := SetlistSong.mk "F3" "S2" "songA" 3 None None.

Definition db_band : DB :=
  mkDB [S2] [F1; F2; F3] [Block.mk "B3" "S2" "Set 1" 1] [songA; songB]
       [Band.mk "band1" "The Band"]
       [BandMember.mk "band1" "U2" "member"; BandMember.mk "band1" "U3" "admin"].

(** A second private setlist, of user U5, with one entry. *)
Definition S3 : Setlist.t := Setlist.mk "S3" "Other" None None "U5" false 0 0.
Definition G1 : SetlistSong.t := SetlistSong.mk "G1" "S3" "songB" 1 None None.
Definition db_two_setlists : DB := mkDB [S1; S3] [E1; G1] [] [songA; songB] [] [].

(** The client after it fetched the songs of S2. *)
Definition client_S2 : Slice.SetlistsState :=
  Slice.mkState [] None
    [Slice.mkSetlistSong "F1" "S2" "songA" 1 None None;
     Slice.mkSetlistSong "F2" "S2" "songB" 2 None None;
     Slice.mkSetlistSong "F3" "S2" "songA" 3 None None]
    false None.

Definition no_pdf (s : Setlist.t) (l : list SetlistSong.t) : option string := None.
Definition no_link (id : string) (expiry : Z) (read_only : bool) (user : string)
  : option string := None.
Definition no_playlist (token name : string) (s : Setlist.t) (l : list SetlistSong.t)
  : response := server_error.

(** The number of entries of a table that reference a song. *)
Definition count_song (songId : string) (tbl : list SetlistSong.t) : nat :=
  length (filter (fun e => (SetlistSong.song_id e =? songId)%string) tbl).


(** * The routes together *)

(** ** All routes of the controller that are modelled *)

(** The collaborators the handlers are given. *)
Record services := mkServices {
  sv_isUUID : string -> bool;
  sv_notEmpty : string -> bool;
  sv_generateSetlistPDF : Setlist.t -> list SetlistSong.t -> option string;
  sv_generateShareLink : string -> Z -> bool -> string -> option string;
  sv_createPlaylistFromSetlist :
    string -> string -> Setlist.t -> list SetlistSong.t -> response
}.

Inductive call :=
| GetAllSetlists
| CreateSetlist (b : CreateBody) (uuid : string) (now : Z)
| OnSetlist (id : string) (req : request).

Definition handle (sv : services) (db : DB) (user : string) (c : call) : response * DB :=
  match c with
  | GetAllSetlists => (getAllSetlists db user, db)
  | CreateSetlist b uuid now => createSetlist (sv_notEmpty sv) db user b uuid now
  | OnSetlist id req =>
      dispatch (sv_isUUID sv) (sv_notEmpty sv) (sv_generateSetlistPDF sv)
               (sv_generateShareLink sv) (sv_createPlaylistFromSetlist sv) db user id req
  end.

(** A session: calls of several users, one after the other. *)
Definition run_calls (sv : services) (calls : list (string * call)) (db : DB) : DB :=
  fold_left (fun d uc => snd (handle sv d (fst uc) (snd uc))) calls db.

(** ** What a handler may have written *)

(** The columns of a setlist that no handler writes after its creation. *)
Definition same_owner (x y : Setlist.t) : Prop :=
  Setlist.id x = Setlist.id y
  /\ Setlist.band_id x = Setlist.band_id y
  /\ Setlist.created_by x = Setlist.created_by y
  /\ Setlist.created_at x = Setlist.created_at y.

(** The block of an entry, if it has one, is a stored block of the
    setlist of the entry. *)
Definition block_of_same_setlist (bs : list Block.t) (e : SetlistSong.t) : Prop :=
  forall bk, SetlistSong.block_id e = Some bk ->
             exists blk, Block.findByPk bk bs = Some blk
                         /\ Block.setlist_id blk = SetlistSong.setlist_id e.

(** The stores a handler can leave behind, by the kind of its write;
    [notEmpty] is the validator of the model.  Every write to a stored
    setlist or to its entries is made for its creator: for any other
    actor the permission test answers 403 or throws.  No case stands for
    the reorder, which never commits. *)
Inductive effect (notEmpty : string -> bool) (user : string) (db : DB) : DB -> Prop :=
| eff_none : effect notEmpty user db db
| eff_create (row : Setlist.t) :
    Setlist.findByPk (Setlist.id row) (setlists db) = None ->
    Setlist.created_by row = user ->
    truthy (Setlist.name row) = true ->
    notEmpty (Setlist.name row) = true ->
    effect notEmpty user db (with_setlists db (setlists db ++ [row]))
| eff_update (s inst : Setlist.t) (changed : bool) (now : Z) :
    Setlist.findByPk (Setlist.id s) (setlists db) = Some s ->
    Setlist.created_by s = user ->
    same_owner inst s ->
    (truthy (Setlist.name s) = true -> truthy (Setlist.name inst) = true) ->
    (notEmpty (Setlist.name s) = true -> notEmpty (Setlist.name inst) = true) ->
    effect notEmpty user db
      (with_setlists db (Setlist.save changed now inst (setlists db)))
| eff_delete (s : Setlist.t) :
    Setlist.findByPk (Setlist.id s) (setlists db) = Some s ->
    Setlist.created_by s = user ->
    effect notEmpty user db
      (with_setlists (delete_children db (Setlist.id s))
         (Setlist.destroy s (setlists db)))
| eff_add (s : Setlist.t) (row : SetlistSong.t) (now : Z) :
    Setlist.findByPk (SetlistSong.setlist_id row) (setlists db) = Some s ->
    Setlist.created_by s = user ->
    Song.findByPk (SetlistSong.song_id row) (songs db) <> None ->
    block_of_same_setlist (blocks db) row ->
    effect notEmpty user db
      (touch (with_setlist_songs db (setlist_songs db ++ [row])) s now)
| eff_remove (s : Setlist.t) (e : SetlistSong.t) (now : Z) :
    Setlist.findByPk (SetlistSong.setlist_id e) (setlists db) = Some s ->
    Setlist.created_by s = user ->
    In e (setlist_songs db) ->
    effect notEmpty user db
      (touch (with_setlist_songs db (SetlistSong.destroy e (setlist_songs db))) s now).

(** ** Integrity of the store *)

(** The primary key of [setlists]. *)
Definition setlist_ids_unique (db : DB) : Prop :=
  NoDup (map Setlist.id (setlists db)).

(** No stored setlist has an empty name. *)
Definition setlist_names_nonempty (db : DB) : Prop :=
  forall s, In s (setlists db) -> truthy (Setlist.name s) = true.


(** Every entry references a stored song. *)
Definition entries_have_songs (db : DB) : Prop :=
  forall e, In e (setlist_songs db) ->
            Song.findByPk (SetlistSong.song_id e) (songs db) <> None.

(** Every entry belongs to a stored setlist. *)
Definition entries_have_setlists (db : DB) : Prop :=
  forall e, In e (setlist_songs db) ->
            Setlist.findByPk (SetlistSong.setlist_id e) (setlists db) <> None.

(** Every block belongs to a stored setlist. *)
Definition blocks_have_setlists (db : DB) : Prop :=
  forall b, In b (blocks db) ->
            Setlist.findByPk (Block.setlist_id b) (setlists db) <> None.

(** Every entry with a block has a block of its own setlist. *)
Definition entry_blocks_consistent (db : DB) : Prop :=
  forall e, In e (setlist_songs db) -> block_of_same_setlist (blocks db) e.

(** A validator for the fixtures: the name has a character other than a
    space, a tab or a line break. *)
Definition is_space (c : Ascii.ascii) : bool :=
  let n := Ascii.nat_of_ascii c in
  ((n =? 32) || (n =? 9) || (n =? 10) || (n =? 13))%nat.

Definition not_blank (s : string) : bool :=
  existsb (fun c => negb (is_space c)) (list_ascii_of_string s).

Definition plain_services : services :=
  mkServices any_uuid not_blank no_pdf no_link no_playlist.

(** A session on the band's store: U1, the creator, adds songB to S2 in
    the block B3, U9 (a stranger) tries to delete S2, U2 (a member of the
    band) creates a setlist for the band and U1 renames S2. *)
Definition session_band : list (string * call) :=
  [("U1", OnSetlist "S2"
            (AddSongToSetlist (mkAddBody (Some "songB") (Some 4) (Some "B3") None) "F4" 5));
   ("U9", OnSetlist "S2" DeleteSetlist);
   ("U2", CreateSetlist (mkCreateBody (Some "Encore") None (Some "band1") None) "S4" 6);
   ("U1", OnSetlist "S2" (UpdateSetlist (mkUpdateBody (Some "Tour 2") None (Some true)) 7))].


(** The requests that only read: the handler tests [hasAccess]. *)
Definition is_read (req : request) : bool :=
  match req with
  | GetSetlistById | GetSetlistSongs | ExportSetlistToPDF | ExportSetlistToSpotify _ => true
  | _ => false
  end.

(** A public setlist of U1 without a band, with one entry. *)
Definition S5 : Setlist.t := Setlist.mk "S5" "Open mic" None None "U1" true 0 0.
Definition db_public : DB :=
  mkDB [S5] [SetlistSong.mk "P1" "S5" "songA" 1 None None] [] [songA; songB] [] [].

(** * The client: thunks and the list component *)

(** ** The thunks of the slice that call the modelled routes *)

(** An entry as the client holds it. *)
Definition to_client (e : SetlistSong.t) : Slice.SetlistSong :=
  Slice.mkSetlistSong (SetlistSong.id e) (SetlistSong.setlist_id e) (SetlistSong.song_id e)
    (SetlistSong.position e) (SetlistSong.block_id e) (SetlistSong.notes e).

(** axios resolves on a status from 200 to 299 and rejects otherwise. *)
Definition is_2xx (r : response) : bool := (200 <=? status r) && (status r <? 300).

(** [err.response?.data?.msg || fallback] *)
Definition error_message (r : response) (fallback : string) : string :=
  match payload r with
  | JMsg m => if truthy m then m else fallback
  | _ => fallback
  end.

(** The action a thunk dispatches after [pending], by the answer of the
    server; [None] stands for a resolved answer whose data is not of the
    type of the thunk. *)
Definition fetchSetlistSongs_thunk (r : response) : option Slice.action :=
  if is_2xx r then
    match payload r with
    | JSetlistSongs l => Some (Slice.fetchSetlistSongs (Slice.fulfilled (map to_client l)))
    | _ => None
    end
  else Some (Slice.fetchSetlistSongs
               (Slice.rejected (error_message r "Failed to fetch setlist songs"))).

Definition addSongToSetlist_thunk (r : response) : option Slice.action :=
  if is_2xx r then
    match payload r with
    | JSetlistSong (Some e) => Some (Slice.addSongToSetlist (Slice.fulfilled (to_client e)))
    | _ => None
    end
  else Some (Slice.addSongToSetlist
               (Slice.rejected (error_message r "Failed to add song to setlist"))).

Definition removeSongFromSetlist_thunk (setlist_id song_id : string) (r : response)
  : Slice.action :=
  if is_2xx r then Slice.removeSongFromSetlist (Slice.fulfilled (setlist_id, song_id))
  else Slice.removeSongFromSetlist
         (Slice.rejected (error_message r "Failed to remove song from setlist")).

Definition reorderSetlistSongs_thunk (r : response) : option Slice.action :=
  if is_2xx r then
    match payload r with
    | JSetlistSongs l => Some (Slice.reorderSetlistSongs (Slice.fulfilled (map to_client l)))
    | _ => None
    end
  else Some (Slice.reorderSetlistSongs
               (Slice.rejected (error_message r "Failed to reorder setlist songs"))).

Definition deleteSetlist_thunk (id : string) (r : response) : Slice.action :=
  if is_2xx r then Slice.deleteSetlist (Slice.fulfilled id)
  else Slice.deleteSetlist (Slice.rejected (error_message r "Failed to delete setlist")).

(** The kinds of actions of the slice. *)
Inductive action_kind :=
| Plain
| Pending
| Fulfilled
| Rejected (e : string).

Definition phase_kind {A : Type} (p : Slice.phase A) : action_kind :=
  match p with
  | Slice.pending => Pending
  | Slice.fulfilled _ => Fulfilled
  | Slice.rejected e => Rejected e
  end.

Definition kind_of (a : Slice.action) : action_kind :=
  match a with
  | Slice.clearCurrentSetlist | Slice.resetSetlistsState => Plain
  | Slice.fetchSetlists p => phase_kind p
  | Slice.fetchSetlistById p => phase_kind p
  | Slice.fetchSetlistSongs p => phase_kind p
  | Slice.createSetlist p => phase_kind p
  | Slice.updateSetlist p => phase_kind p
  | Slice.deleteSetlist p => phase_kind p
  | Slice.addSongToSetlist p => phase_kind p
  | Slice.removeSongFromSetlist p => phase_kind p
  | Slice.reorderSetlistSongs p => phase_kind p
  end.

(** Ascending position, for the entries of the client. *)
Definition client_position_le (a b : Slice.SetlistSong) : Prop :=
  Slice.position a <= Slice.position b.

(** The songs the client shows are those the server lists for the
    setlist, in ascending position. *)
Definition in_sync (db : DB) (id : string) (st : Slice.SetlistsState) : Prop :=
  Permutation (map to_client (SetlistSong.findAll_ordered id (setlist_songs db)))
    (Slice.setlistSongs st)
  /\ StronglySorted client_position_le (Slice.setlistSongs st).

(** ** One call of the client against the server *)

(** The calls of the song editor. *)
Inductive client_call :=
| CFetchSongs
| CAddSong (b : AddBody) (uuid : string) (now : Z)
| CRemoveSong (songId : string) (pick : nat) (now : Z)
| CReorder (songs_body : songs_field) (now : Z).

Definition request_of (c : client_call) : request :=
  match c with
  | CFetchSongs => GetSetlistSongs
  | CAddSong b uuid now => AddSongToSetlist b uuid now
  | CRemoveSong songId pick now => RemoveSongFromSetlist songId pick now
  | CReorder songs_body now => ReorderSetlistSongs songs_body now
  end.

Definition pending_of (c : client_call) : Slice.action :=
  match c with
  | CFetchSongs => Slice.fetchSetlistSongs Slice.pending
  | CAddSong _ _ _ => Slice.addSongToSetlist Slice.pending
  | CRemoveSong _ _ _ => Slice.removeSongFromSetlist Slice.pending
  | CReorder _ _ => Slice.reorderSetlistSongs Slice.pending
  end.

Definition result_of (c : client_call) (id : string) (r : response) : option Slice.action :=
  match c with
  | CFetchSongs => fetchSetlistSongs_thunk r
  | CAddSong _ _ _ => addSongToSetlist_thunk r
  | CRemoveSong songId _ _ => Some (removeSongFromSetlist_thunk id songId r)
  | CReorder _ _ => reorderSetlistSongs_thunk r
  end.

(** The thunk is dispatched: [pending] goes through the reducer, the
    server handles the request, the resulting action goes through the
    reducer. *)
Definition client_round (sv : services) (db : DB) (user id : string) (c : client_call)
           (st : Slice.SetlistsState) : DB * option Slice.SetlistsState :=
  let r := handle sv db user (OnSetlist id (request_of c)) in
  (snd r,
   option_map (Slice.reducer (Slice.reducer st (pending_of c))) (result_of c id (fst r))).

(** What a call needs for client and server to stay in step: a fresh id
    for a new entry; for a removal, unique entry ids and the song on the
    setlist at most once. *)
Definition round_ok (db : DB) (id : string) (c : client_call) : Prop :=
  match c with
  | CAddSong _ uuid _ => SetlistSong.findByPk uuid (setlist_songs db) = None
  | CRemoveSong songId _ _ =>
      NoDup (map SetlistSong.id (setlist_songs db))
      /\ (forall x y, In x (setlist_songs db) -> In y (setlist_songs db) ->
                      SetlistSong.setlist_id x = id -> SetlistSong.setlist_id y = id ->
                      SetlistSong.song_id x = songId -> SetlistSong.song_id y = songId ->
                      x = y)
  | _ => True
  end.

(** The fixed text a thunk rejects with when the answer has no [msg]. *)
Definition fallback_of (c : client_call) : string :=
  match c with
  | CFetchSongs => "Failed to fetch setlist songs"
  | CAddSong _ _ _ => "Failed to add song to setlist"
  | CRemoveSong _ _ _ => "Failed to remove song from setlist"
  | CReorder _ _ => "Failed to reorder setlist songs"
  end.

(** The client while it shows S5. *)
Definition client_S5 : Slice.SetlistsState :=
  Slice.mkState [Slice.mkSetlist "S5" "Open mic" None "U1" true]
    (Some (Slice.mkSetlist "S5" "Open mic" None "U1" true))
    [Slice.mkSetlistSong "P1" "S5" "songA" 1 None None] false None.

(** ** [SetlistList] *)

Module SetlistListView.

(** The state of the component: the anchor of the open menu, the setlist
    the menu was opened for, and whether the delete dialog is open. *)
Record state := mkState {
  anchorEl : option nat;
  selectedSetlist : option Slice.Setlist;
  deleteDialogOpen : bool
}.

Definition initial : state := mkState None None false.

(** Which of the optional callbacks the parent passes. *)
Record props := mkProps { onEdit : bool; onCopy : bool; onShare : bool }.

Inductive event :=
| handleMenuOpen (anchor : nat) (setlist : Slice.Setlist)
| handleMenuClose
| handleEditClick
| handleCopyClick
| handleShareClick
| handleDeleteClick
| handleDeleteConfirm
| handleDeleteCancel.

(** What a handler calls besides the state setters. *)
Inductive output :=
| CallOnEdit (setlist : Slice.Setlist)
| CallOnCopy (setlist : Slice.Setlist)
| CallOnShare (setlist : Slice.Setlist)
| DispatchDeleteSetlist (id : string).

Definition close_menu (st : state) : state :=
  mkState None (selectedSetlist st) (deleteDialogOpen st).

(** [if (selectedSetlist && callback) callback(selectedSetlist)] *)
Definition call_if (given : bool) (st : state) (f : Slice.Setlist -> output) : list output :=
  match selectedSetlist st with
  | Some s => if given then [f s] else []
  | None => []
  end.

Definition step (p : props) (st : state) (ev : event) : state * list output :=
  match ev with
  | handleMenuOpen anchor setlist =>
      (mkState (Some anchor) (Some setlist) (deleteDialogOpen st), [])
  | handleMenuClose => (close_menu st, [])
  | handleEditClick => (close_menu st, call_if (onEdit p) st CallOnEdit)
  | handleCopyClick => (close_menu st, call_if (onCopy p) st CallOnCopy)
  | handleShareClick => (close_menu st, call_if (onShare p) st CallOnShare)
  | handleDeleteClick => (mkState None (selectedSetlist st) true, [])
  | handleDeleteConfirm =>
      (mkState (anchorEl st) (selectedSetlist st) false,
       match selectedSetlist st with
       | Some s => [DispatchDeleteSetlist (Slice.sl_id s)]
       | None => []
       end)
  | handleDeleteCancel => (mkState (anchorEl st) (selectedSetlist st) false, [])
  end.

Fixpoint run (p : props) (st : state) (evs : list event) : state * list output :=
  match evs with
  | [] => (st, [])
  | ev :: rest =>
      let (st1, out1) := step p st ev in
      let (st2, out2) := run p st1 rest in
      (st2, out1 ++ out2)
  end.

(** The setlist of the last [handleMenuOpen] of a trace. *)
Fixpoint last_opened (evs : list event) (before : option Slice.Setlist)
  : option Slice.Setlist :=
  match evs with
  | [] => before
  | handleMenuOpen _ s :: rest => last_opened rest (Some s)
  | _ :: rest => last_opened rest before
  end.

(** The text of the description on a card.  [length] and [substring] of
    a JS string count UTF-16 code units, so the description is taken as
    the list of its code units.  Nothing is shown for a missing or empty
    description; a description of more than 120 units is cut to its first
    120 units, followed by three dots. *)
Definition dots : list N := [46; 46; 46]%N.

Definition shown_description (description : option (list N)) : option (list N) :=
  match description with
  | Some d =>
      if negb (length d =? 0)%nat then
        Some (if (120 <? length d)%nat then firstn 120 d ++ dots else d)
      else None
  | None => None
  end.

End SetlistListView.

(** A description of 130 code units. *)
Definition long_description : list N := repeat 97%N 130.

(** ** Proof steps *)

(** The three parts of a rejection: store unchanged, an error status, and
    the kind of the error under the side condition, which is left open. *)
Ltac rejected :=
  simpl; split; [reflexivity | split; [discriminate | ]].

(** The write of [save] is kept folded in the goals. *)
Arguments Setlist.save : simpl never.

(** * Properties *)

(** ** Facts about the models *)

Lemma Setlist_findByPk_id (pk : string) (tbl : list Setlist.t) (s : Setlist.t) :
  Setlist.findByPk pk tbl = Some s -> Setlist.id s = pk.
Proof.
  unfold Setlist.findByPk. intros H.
  apply find_some in H. destruct H as [_ H].
  now apply String.eqb_eq.
Qed.

Lemma Setlist_findByPk_In (pk : string) (tbl : list Setlist.t) (s : Setlist.t) :
  Setlist.findByPk pk tbl = Some s -> In s tbl.
Proof.
  unfold Setlist.findByPk. intros H. now apply find_some in H.
Qed.

(** Saving a changed instance that was read by its key leaves the key
    column and the ownership columns of the row the key finds. *)
Lemma Setlist_findByPk_save (now : Z) (inst : Setlist.t) (pk : string) (tbl : list Setlist.t) :
  Setlist.id inst = pk ->
  Setlist.findByPk pk tbl <> None ->
  Setlist.findByPk pk (Setlist.save true now inst tbl)
  = Some (Setlist.set_updated_at now inst).
Proof.
  intros Hid. subst pk. unfold Setlist.findByPk, Setlist.save.
  induction tbl as [|x tbl IH]; simpl; intros Hfound.
  - congruence.
  - destruct (Setlist.id x =? Setlist.id inst)%string eqn:Ex; simpl.
    + now rewrite String.eqb_refl.
    + rewrite Ex. now apply IH.
Qed.

Lemma insert_by_position_perm (e : SetlistSong.t) (l : list SetlistSong.t) :
  Permutation (e :: l) (SetlistSong.insert_by_position e l).
Proof.
  induction l as [|x l IH]; simpl.
  - apply Permutation_refl.
  - destruct (SetlistSong.position e <=? SetlistSong.position x).
    + apply Permutation_refl.
    + eapply perm_trans; [apply perm_swap|]. now apply perm_skip.
Qed.

Lemma order_by_position_perm (l : list SetlistSong.t) :
  Permutation l (SetlistSong.order_by_position l).
Proof.
  induction l as [|x l IH]; simpl.
  - apply perm_nil.
  - eapply perm_trans; [apply perm_skip, IH|]. apply insert_by_position_perm.
Qed.

Lemma insert_by_position_sorted (e : SetlistSong.t) (l : list SetlistSong.t) :
  StronglySorted position_le l ->
  StronglySorted position_le (SetlistSong.insert_by_position e l).
Proof.
  induction 1 as [|x l Hs IH Hall]; simpl.
  - repeat constructor.
  - destruct (SetlistSong.position e <=? SetlistSong.position x) eqn:E.
    + apply Z.leb_le in E. constructor.
      * now constructor.
      * constructor; [exact E|].
        eapply Forall_impl; [|exact Hall].
        unfold position_le. intros y Hy. lia.
    + apply Z.leb_gt in E. constructor; [exact IH|].
      eapply Permutation_Forall; [apply insert_by_position_perm|].
      constructor; [unfold position_le; lia | exact Hall].
Qed.

Lemma order_by_position_sorted (l : list SetlistSong.t) :
  StronglySorted position_le (SetlistSong.order_by_position l).
Proof.
  induction l as [|x l IH]; simpl.
  - constructor.
  - now apply insert_by_position_sorted.
Qed.

(** ** The permission tests *)

(** The creator passes each test without a look at the band. *)
Lemma creator_hasAccess (db : DB) (s : Setlist.t) :
  hasAccess db (Setlist.created_by s) s = Some true.
Proof. unfold hasAccess. now rewrite String.eqb_refl. Qed.

Lemma creator_member_denied (db : DB) (s : Setlist.t) :
  member_denied db (Setlist.created_by s) s = Some false.
Proof. unfold member_denied. now rewrite String.eqb_refl. Qed.

Lemma creator_admin_denied (db : DB) (s : Setlist.t) :
  admin_denied db (Setlist.created_by s) s = Some false.
Proof. unfold admin_denied. now rewrite String.eqb_refl. Qed.

(** Only the creator passes the tests of the handlers that write. *)
Lemma member_denied_false (db : DB) (user : string) (s : Setlist.t) :
  member_denied db user s = Some false <-> Setlist.created_by s = user.
Proof.
  unfold member_denied, isUserBandMember, ReferenceError.
  destruct (Setlist.created_by s =? user)%string eqn:E; simpl.
  - apply String.eqb_eq in E. tauto.
  - apply String.eqb_neq in E.
    destruct (Setlist.band_id s) as [b|]; [destruct (truthy b)|]; simpl;
      (split; [discriminate | tauto]).
Qed.

Lemma admin_denied_false (db : DB) (user : string) (s : Setlist.t) :
  admin_denied db user s = Some false <-> Setlist.created_by s = user.
Proof.
  unfold admin_denied, ReferenceError.
  destruct (Setlist.created_by s =? user)%string eqn:E; simpl.
  - apply String.eqb_eq in E. tauto.
  - apply String.eqb_neq in E.
    destruct (truthy_opt (Setlist.band_id s)); (split; [discriminate | tauto]).
Qed.

(** Whoever is not the creator is answered 403 on a setlist without a
    band and runs into the unbound [BandMember] on a setlist with one. *)
Lemma other_member_denied (db : DB) (user : string) (s : Setlist.t) :
  Setlist.created_by s <> user ->
  member_denied db user s
  = if truthy_opt (Setlist.band_id s) then None else Some true.
Proof.
  intros Hc. apply String.eqb_neq in Hc.
  unfold member_denied, isUserBandMember, truthy_opt, ReferenceError. rewrite Hc. simpl.
  destruct (Setlist.band_id s) as [b|]; [destruct (truthy b)|]; reflexivity.
Qed.

Lemma other_admin_denied (db : DB) (user : string) (s : Setlist.t) :
  Setlist.created_by s <> user ->
  admin_denied db user s
  = if truthy_opt (Setlist.band_id s) then None else Some true.
Proof.
  intros Hc. apply String.eqb_neq in Hc.
  unfold admin_denied, ReferenceError. now rewrite Hc.
Qed.

Lemma other_hasAccess (db : DB) (user : string) (s : Setlist.t) :
  Setlist.created_by s <> user ->
  Setlist.is_public s = false ->
  hasAccess db user s
  = if truthy_opt (Setlist.band_id s) then None else Some false.
Proof.
  intros Hc Hp. apply String.eqb_neq in Hc.
  unfold hasAccess, isUserBandMember, truthy_opt, ReferenceError. rewrite Hc, Hp.
  destruct (Setlist.band_id s) as [b|]; [destruct (truthy b)|]; reflexivity.
Qed.

Lemma hasAccess_true (db : DB) (user : string) (s : Setlist.t) :
  hasAccess db user s = Some true
  <-> Setlist.created_by s = user \/ Setlist.is_public s = true.
Proof.
  unfold hasAccess, isUserBandMember, ReferenceError.
  destruct (Setlist.created_by s =? user)%string eqn:E.
  - apply String.eqb_eq in E. tauto.
  - apply String.eqb_neq in E.
    destruct (Setlist.is_public s); [tauto|].
    destruct (Setlist.band_id s) as [b|]; [destruct (truthy b)|];
      (split; [discriminate | intros [H | H]; [contradiction | discriminate]]).
Qed.

(** ** C2: the order of [listEntries] *)

(** C2, refuted as stated: after two calls of [addEntry] the listing puts
    the entry of the second block ("Encore", position 1 inside it) before
    the entry of the first block ("Set 1", position 2 inside it). *)
Lemma listEntries_ignores_block_position :
  exists l,
    getSetlistSongs db_two_blocks "U1" "S1" = ok (JSetlistSongs l)
    /\ ~ spec_listEntries_order db_two_blocks l.
Proof.
  eexists. split; [vm_compute; reflexivity|].
  intros H. inversion H as [|a l Hs Hall]; subst.
  inversion Hall as [|b l' Hab _]; subst.
  vm_compute in Hab. destruct Hab as [Hlt | [Heq _]]; discriminate.
Qed.

(** C2 (amended): after any sequence of [addEntry], [removeEntry] and
    [reorderEntries] calls on a setlist, listing its songs for its creator,
    or for anyone when the setlist is public, answers 200 with exactly the
    stored entries of that setlist, in ascending order of their entry
    position; the position of the blocks plays no part. *)
Theorem listEntries_sorted_by_entry_position
  (isUUID : string -> bool) (id : string) (ops : list entry_op) (db : DB)
  (user : string) (s : Setlist.t) :
  let db' := run_ops isUUID id ops db in
  Setlist.findByPk id (setlists db') = Some s ->
  Setlist.created_by s = user \/ Setlist.is_public s = true ->
  exists l,
    getSetlistSongs db' user id = ok (JSetlistSongs l)
    /\ StronglySorted position_le l
    /\ Permutation
         (filter (fun e => (SetlistSong.setlist_id e =? id)%string) (setlist_songs db')) l.
Proof.
  intros db' Hfind Hacc.
  exists (SetlistSong.findAll_ordered id (setlist_songs db')).
  apply (hasAccess_true db') in Hacc.
  unfold getSetlistSongs. rewrite Hfind, Hacc. simpl.
  split; [reflexivity|]. split.
  - apply order_by_position_sorted.
  - apply order_by_position_perm.
Qed.

Lemma listEntries_sorted_by_entry_position_witness :
  exists l,
    getSetlistSongs db_two_blocks "U1" "S1" = ok (JSetlistSongs l)
    /\ StronglySorted position_le l
    /\ Permutation
         (filter (fun e => (SetlistSong.setlist_id e =? "S1")%string)
            (setlist_songs db_two_blocks)) l.
Proof.
  apply (listEntries_sorted_by_entry_position any_uuid "S1"
           [AddEntry "U1" (mkAddBody (Some "songA") (Some 1) (Some "B2") None) "E1" 10;
            AddEntry "U1" (mkAddBody (Some "songB") (Some 2) (Some "B1") None) "E2" 11]
           db_blocks "U1" (Setlist.mk "S1" "Gig" None None "U1" false 0 11)).
  - reflexivity.
  - left. reflexivity.
Defined.

(** ** The reorder never commits *)

(** The answers of [reorderSetlistSongs], by the checks in their order: the
    test on [songs], the lookup, the permission test, and the call of
    [sequelize.transaction], which throws. *)
Lemma reorder_cases (db : DB) (user id : string) (songs_body : songs_field) (now : Z) :
  reorderSetlistSongs db user id songs_body now
  = (if songs_rejected songs_body then mkResponse 400 (JMsg "Songs array is required")
     else match Setlist.findByPk id (setlists db) with
          | None => mkResponse 404 (JMsg "Setlist not found")
          | Some s =>
              match member_denied db user s with
              | Some true =>
                  mkResponse 403 (JMsg "You do not have permission to update this setlist")
              | _ => server_error
              end
          end,
     db).
Proof.
  unfold reorderSetlistSongs.
  destruct (songs_rejected songs_body); [reflexivity|].
  destruct (Setlist.findByPk id (setlists db)) as [s|]; [|reflexivity].
  destruct (member_denied db user s) as [[|]|]; reflexivity.
Qed.

Lemma reorder_store (db : DB) (user id : string) (songs_body : songs_field) (now : Z) :
  snd (reorderSetlistSongs db user id songs_body now) = db.
Proof. now rewrite reorder_cases. Qed.

Lemma reorder_is_error (db : DB) (user id : string) (songs_body : songs_field) (now : Z) :
  error_of (fst (reorderSetlistSongs db user id songs_body now)) <> None.
Proof.
  rewrite reorder_cases. simpl.
  destruct (songs_rejected songs_body); [discriminate|].
  destruct (Setlist.findByPk id (setlists db)) as [s|]; [|discriminate].
  destruct (member_denied db user s) as [[|]|]; discriminate.
Qed.

(** ** C1: a reorder that names an unknown entry *)

(** C1: when one update of the list of a reorder carries an id that no
    entry of the setlist has (no stored entry at all, or an entry of
    another setlist), the call is answered with an error and every stored
    entry keeps its position and its block.  The handler does not look at
    the ids: the call of [sequelize.transaction] throws for every list. *)
Theorem reorder_with_foreign_update_fails
  (db : DB) (user id : string) (us : list ReorderUpdate) (now : Z) :
  (exists u, In u us /\ foreign_update db id u) ->
  let r := reorderSetlistSongs db user id (SongsArray (map ItemObj us)) now in
  error_of (fst r) <> None /\ setlist_songs (snd r) = setlist_songs db.
Proof.
  intros _ r. subst r. split.
  - apply reorder_is_error.
  - now rewrite reorder_store.
Qed.

Lemma reorder_with_foreign_update_fails_witness :
  foreign_update db_entries "S1" (mkReorderUpdate "ghost" 9 None)
  /\ (let r := reorderSetlistSongs db_entries "U1" "S1"
                 (SongsArray (map ItemObj [mkReorderUpdate "E1" 2 None;
                                           mkReorderUpdate "ghost" 9 None])) 5 in
      error_of (fst r) <> None /\ setlist_songs (snd r) = setlist_songs db_entries).
Proof.
  assert (Hf : foreign_update db_entries "S1" (mkReorderUpdate "ghost" 9 None)).
  { intros e [He | [He | []]] Hid; subst e; discriminate Hid. }
  split; [exact Hf|].
  apply (reorder_with_foreign_update_fails db_entries "U1" "S1"
           [mkReorderUpdate "E1" 2 None; mkReorderUpdate "ghost" 9 None] 5).
  exists (mkReorderUpdate "ghost" 9 None). split; [simpl; auto | exact Hf].
Defined.

(** For the creator and a non-empty array the answer is 500. *)
Lemma reorder_by_creator (db : DB) (id : string) (s : Setlist.t)
      (songs_body : songs_field) (now : Z) :
  songs_rejected songs_body = false ->
  Setlist.findByPk id (setlists db) = Some s ->
  reorderSetlistSongs db (Setlist.created_by s) id songs_body now = (server_error, db).
Proof.
  intros Hrej Hfind. rewrite reorder_cases, Hrej, Hfind.
  now rewrite creator_member_denied.
Qed.

(** ** C3: what an outsider is answered *)

Lemma BandMember_findOne_None_some (b user : string) (tbl : list BandMember.t) :
  BandMember.findOne b user tbl = None ->
  existsb (fun m => (m =? user)%string)
    (map BandMember.user_id
       (filter (fun m => (BandMember.band_id m =? b)%string) tbl)) = false.
Proof.
  unfold BandMember.findOne. induction tbl as [|m tbl IH]; simpl; [reflexivity|].
  destruct (BandMember.band_id m =? b)%string; simpl.
  - destruct (BandMember.user_id m =? user)%string; [discriminate|]. exact IH.
  - exact IH.
Qed.

(** For a private setlist without a band the access test of
    [getSetlistById] reads [.members] of [null]: every actor but the
    creator is answered 500. *)
Lemma getSetlistById_without_band_throws (db : DB) (user id : string) (s : Setlist.t) :
  Setlist.findByPk id (setlists db) = Some s ->
  Setlist.created_by s <> user ->
  Setlist.is_public s = false ->
  Setlist.band_id s = None ->
  getSetlistById db user id = server_error.
Proof.
  intros Hfind Hc Hp Hb. unfold getSetlistById, hasAccess_byId, include_band.
  apply String.eqb_neq in Hc. now rewrite Hfind, Hc, Hp, Hb.
Qed.

(** What the handlers answer an outsider, and that they leave the store as
    it was.  A request that fails the input checks its handler makes first
    (add-song, reorder, Spotify export) is answered 400.  Get-by-id, when
    the band row can be loaded, is answered 403.  Every other handler
    answers 403 for a setlist without a band and 500 for a setlist with
    one, where its permission test throws. *)
Theorem outsider_is_refused
  (isUUID notEmpty : string -> bool)
  (generateSetlistPDF : Setlist.t -> list SetlistSong.t -> option string)
  (generateShareLink_service : string -> Z -> bool -> string -> option string)
  (createPlaylistFromSetlist :
     string -> string -> Setlist.t -> list SetlistSong.t -> response)
  (db : DB) (user id : string) (s : Setlist.t) (req : request) :
  Setlist.findByPk id (setlists db) = Some s ->
  outsider db user s ->
  (req = GetSetlistById -> include_band db s <> None) ->
  let r := dispatch isUUID notEmpty generateSetlistPDF generateShareLink_service
             createPlaylistFromSetlist db user id req in
  snd r = db
  /\ error_of (fst r)
     = Some (if rejected_on_input isUUID req then InvalidInput
             else match req with
                  | GetSetlistById => PermissionDenied
                  | _ => if truthy_opt (Setlist.band_id s) then ServerError
                         else PermissionDenied
                  end).
Proof.
  intros Hfind Hout Hband r. subst r.
  destruct Hout as (Hc & Hm & Hp).
  pose proof (other_member_denied db user s Hc) as Hmd.
  pose proof (other_admin_denied db user s Hc) as Had.
  pose proof (other_hasAccess db user s Hc Hp) as Hha.
  destruct req; simpl.
  - (* get by id *)
    unfold getSetlistById, hasAccess_byId. rewrite Hfind.
    apply String.eqb_neq in Hc. rewrite Hc, Hp.
    specialize (Hband eq_refl).
    destruct (include_band db s) as [members|] eqn:Ei; [|congruence].
    unfold include_band in Ei.
    destruct (Setlist.band_id s) as [b|] eqn:Eb; [|discriminate].
    destruct (Band.findByPk b (bands db)); [|discriminate].
    injection Ei as <-.
    rewrite (BandMember_findOne_None_some _ _ _ (Hm b Eb)). now split.
  - unfold updateSetlist. rewrite Hfind, Had.
    destruct (truthy_opt (Setlist.band_id s)); now split.
  - unfold deleteSetlist. rewrite Hfind, Had.
    destruct (truthy_opt (Setlist.band_id s)); now split.
  - unfold getSetlistSongs. rewrite Hfind, Hha.
    destruct (truthy_opt (Setlist.band_id s)); now split.
  - unfold addSongToSetlist.
    destruct (validate_add isUUID b) as [[sid p]|]; [|now split].
    rewrite Hfind, Hmd.
    destruct (truthy_opt (Setlist.band_id s)); now split.
  - unfold removeSongFromSetlist. rewrite Hfind, Hmd.
    destruct (truthy_opt (Setlist.band_id s)); now split.
  - rewrite reorder_cases.
    destruct (songs_rejected songs_body); [now split|].
    rewrite Hfind, Hmd.
    destruct (truthy_opt (Setlist.band_id s)); now split.
  - unfold exportSetlistToPDF. rewrite Hfind, Hha.
    destruct (truthy_opt (Setlist.band_id s)); now split.
  - unfold exportSetlistToSpotify.
    destruct (truthy_opt playlist_name); simpl; [|now split].
    rewrite Hfind, Hha.
    destruct (truthy_opt (Setlist.band_id s)); now split.
  - unfold generateShareLink. rewrite Hfind, Hmd.
    destruct (truthy_opt (Setlist.band_id s)); now split.
Qed.

(** U9 is a stranger to the band of S2: get-by-id is answered 403 and
    list-songs 500. *)
Example outsider_is_refused_example :
  outsider db_band "U9" S2
  /\ error_of (getSetlistById db_band "U9" "S2") = Some PermissionDenied
  /\ getSetlistSongs db_band "U9" "S2" = server_error.
Proof.
  split; [|split; reflexivity].
  unfold outsider, not_member. split; [discriminate|]. split; [|reflexivity].
  intros b Hb. injection Hb as <-. reflexivity.
Qed.

(** C3, at the input where the code departs from it: U2 is neither the
    creator of the private setlist S1, which has no band, nor a member of
    anything.  Listing the songs of S1 is answered 403, as the claim says,
    but get-by-id is answered 500 'Server Error': its access test throws
    on the missing band. *)
Lemma getSetlistById_outsider_of_unbanded_setlist :
  outsider db_entries "U2" S1
  /\ Setlist.findByPk "S1" (setlists db_entries) = Some S1
  /\ getSetlistById db_entries "U2" "S1" = server_error
  /\ error_of (getSetlistById db_entries "U2" "S1") <> Some PermissionDenied
  /\ error_of (getSetlistSongs db_entries "U2" "S1") = Some PermissionDenied.
Proof.
  split.
  { unfold outsider, not_member. split; [discriminate|].
    split; [intros b Hb; discriminate Hb | reflexivity]. }
  split; [reflexivity|]. split; [reflexivity|]. split; [discriminate | reflexivity].
Qed.

(** ** C4: band members who are not the creator *)

Lemma BandMember_findOne_role_spec (db : DB) (b user r : string) :
  BandMember.findOne_role b user r (band_members db) <> None <-> has_role db user b r.
Proof.
  unfold BandMember.findOne_role, has_role. split.
  - destruct (find _ (band_members db)) as [m|] eqn:E; [intros _ | congruence].
    apply find_some in E. destruct E as [Hin Hm].
    apply andb_prop in Hm. destruct Hm as [Hm Hr].
    apply andb_prop in Hm. destruct Hm as [Hb Hu].
    exists m. repeat split; trivial; now apply String.eqb_eq.
  - intros (m & Hin & Hb & Hu & Hr) E.
    apply (find_none _ _ E) in Hin.
    now rewrite Hb, Hu, Hr, !String.eqb_refl in Hin.
Qed.

(** Whoever is not the creator of a setlist with a band, member of the
    band or not, admin or not, is answered 500 by each of the five
    handlers that write, once the request has passed the input checks; the
    store is left as it was. *)
Lemma non_creator_of_banded_setlist
      (isUUID notEmpty : string -> bool) (db : DB) (user id : string) (s : Setlist.t) :
  Setlist.findByPk id (setlists db) = Some s ->
  truthy_opt (Setlist.band_id s) = true ->
  Setlist.created_by s <> user ->
  (forall body now, updateSetlist notEmpty db user id body now = (server_error, db))
  /\ deleteSetlist db user id = (server_error, db)
  /\ (forall body uuid now,
         validate_add isUUID body <> None ->
         addSongToSetlist isUUID db user id body uuid now = (server_error, db))
  /\ (forall songId pick now,
         removeSongFromSetlist db user id songId pick now = (server_error, db))
  /\ (forall songs_body now,
         songs_rejected songs_body = false ->
         reorderSetlistSongs db user id songs_body now = (server_error, db)).
Proof.
  intros Hfind Hb Hc.
  pose proof (other_member_denied db user s Hc) as Hmd.
  pose proof (other_admin_denied db user s Hc) as Had.
  rewrite Hb in Hmd, Had.
  split; [|split; [|split; [|split]]].
  - intros body now. unfold updateSetlist. now rewrite Hfind, Had.
  - unfold deleteSetlist. now rewrite Hfind, Had.
  - intros body uuid now Hv. unfold addSongToSetlist.
    destruct (validate_add isUUID body) as [[sid p]|]; [|congruence].
    now rewrite Hfind, Hmd.
  - intros songId pick now. unfold removeSongFromSetlist. now rewrite Hfind, Hmd.
  - intros songs_body now Hrej. now rewrite reorder_cases, Hrej, Hfind, Hmd.
Qed.

(** C4, where the code departs from it: S2 is a setlist of the band band1
    and of the creator U1; U2 has the role member and U3 the role admin in
    that band.  The update and the delete of the admin, and add-song,
    remove-song and reorder of the member, are each answered 500 'Server
    Error' and nothing is written: the permission tests evaluate
    [BandMember], which the controller never binds. *)
Lemma band_member_is_answered_server_error :
  Setlist.findByPk "S2" (setlists db_band) = Some S2
  /\ Setlist.band_id S2 = Some "band1"
  /\ has_role db_band "U2" "band1" "member"
  /\ has_role db_band "U3" "band1" "admin"
  /\ updateSetlist not_blank db_band "U3" "S2" (mkUpdateBody (Some "New") None None) 7
     = (server_error, db_band)
  /\ deleteSetlist db_band "U3" "S2" = (server_error, db_band)
  /\ addSongToSetlist any_uuid db_band "U2" "S2"
       (mkAddBody (Some "songB") (Some 4) None None) "F4" 7
     = (server_error, db_band)
  /\ removeSongFromSetlist db_band "U2" "S2" "songB" 0 7 = (server_error, db_band)
  /\ reorderSetlistSongs db_band "U2" "S2"
       (SongsArray [ItemObj (mkReorderUpdate "F1" 5 None)]) 7
     = (server_error, db_band).
Proof.
  split; [reflexivity|]. split; [reflexivity|].
  split; [apply BandMember_findOne_role_spec; discriminate|].
  split; [apply BandMember_findOne_role_spec; discriminate|].
  repeat split.
Qed.

(** ** C5: the cascade of [deleteSetlist] *)

(** C5: [deleteSetlist] answers 200 exactly when the setlist exists and the
    actor is its creator; it then first removes every entry and every
    block of the setlist and after that the setlist row, so that no stored
    entry and no stored block references the setlist id and the setlist is
    gone.  Rows of other setlists stay. *)
Theorem deleteSetlist_cascades (db : DB) (user id : string) :
  let r := deleteSetlist db user id in
  (status (fst r) = 200 <->
   exists s, Setlist.findByPk id (setlists db) = Some s /\ Setlist.created_by s = user)
  /\ (status (fst r) = 200 ->
      (forall e, In e (setlist_songs (snd r)) -> SetlistSong.setlist_id e <> id)
      /\ (forall b, In b (blocks (snd r)) -> Block.setlist_id b <> id)
      /\ Setlist.findByPk id (setlists (snd r)) = None
      /\ (forall e, In e (setlist_songs db) -> SetlistSong.setlist_id e <> id ->
                    In e (setlist_songs (snd r)))
      /\ (forall b, In b (blocks db) -> Block.setlist_id b <> id -> In b (blocks (snd r)))
      /\ (exists s, Setlist.findByPk id (setlists db) = Some s
                    /\ snd r = with_setlists (delete_children db id)
                                 (Setlist.destroy s (setlists (delete_children db id)))
                    /\ setlists (delete_children db id) = setlists db)).
Proof.
  unfold deleteSetlist.
  destruct (Setlist.findByPk id (setlists db)) as [s|] eqn:Hfind; simpl.
  2:{ split; [split; [discriminate | intros (s & Hs & _); discriminate] | discriminate]. }
  pose proof (Setlist_findByPk_id _ _ _ Hfind) as Hid.
  pose proof (admin_denied_false db user s) as Hcre.
  destruct (admin_denied db user s) as [[|]|] eqn:Hden; simpl.
  { split; [split; [discriminate|] | discriminate].
    intros (s' & Hs & Hd). injection Hs as <-. apply Hcre in Hd. discriminate. }
  2:{ split; [split; [discriminate|] | discriminate].
      intros (s' & Hs & Hd). injection Hs as <-. apply Hcre in Hd. discriminate. }
  split; [split; [intros _; exists s; split; [reflexivity | now apply Hcre] | reflexivity]|].
  intros _. rewrite Hid. repeat split.
  - intros e He. unfold SetlistSong.destroy_where_setlist in He.
    apply filter_In in He. destruct He as [_ He].
    apply negb_true_iff in He. now apply String.eqb_neq.
  - intros b Hb. unfold Block.destroy_where_setlist in Hb.
    apply filter_In in Hb. destruct Hb as [_ Hb].
    apply negb_true_iff in Hb. now apply String.eqb_neq.
  - unfold Setlist.findByPk, Setlist.destroy.
    destruct (find _ (filter _ (setlists db))) as [x|] eqn:E; [|reflexivity].
    apply find_some in E. destruct E as [Hin Hx].
    apply filter_In in Hin. destruct Hin as [_ Hn].
    rewrite Hid, Hx in Hn. discriminate.
  - intros e He Hne. unfold SetlistSong.destroy_where_setlist.
    apply filter_In. split; [exact He|].
    apply negb_true_iff. now apply String.eqb_neq.
  - intros b Hb Hne. unfold Block.destroy_where_setlist.
    apply filter_In. split; [exact Hb|].
    apply negb_true_iff. now apply String.eqb_neq.
  - exists s. repeat split.
Qed.

Lemma deleteSetlist_cascades_witness :
  status (fst (deleteSetlist db_band "U1" "S2")) = 200
  /\ (forall e, In e (setlist_songs (snd (deleteSetlist db_band "U1" "S2"))) ->
                SetlistSong.setlist_id e <> "S2")
  /\ (forall b, In b (blocks (snd (deleteSetlist db_band "U1" "S2"))) ->
                Block.setlist_id b <> "S2").
Proof.
  destruct (deleteSetlist_cascades db_band "U1" "S2") as [_ H].
  destruct (H eq_refl) as (He & Hb & _).
  split; [reflexivity | split; assumption].
Defined.

(** ** C6: reordering twice *)

(** C6: the entries stored (their positions and blocks) after the same
    reorder request was handled twice in a row are those stored after it
    was handled once; the second call is answered with the status of the
    first and lists the songs in the same order. *)
Theorem reorder_twice_same_as_once
  (db : DB) (user id : string) (songs_body : songs_field) (now1 now2 : Z) :
  let once := reorderSetlistSongs db user id songs_body now1 in
  let twice := reorderSetlistSongs (snd once) user id songs_body now2 in
  setlist_songs (snd twice) = setlist_songs (snd once)
  /\ status (fst twice) = status (fst once)
  /\ payload (fst twice) = payload (fst once).
Proof.
  intros once twice. subst twice once.
  rewrite (reorder_store db user id songs_body now1).
  rewrite (reorder_cases db user id songs_body now1).
  rewrite (reorder_cases db user id songs_body now2).
  now repeat split.
Qed.

(** The scenario of the specification: songA at 1 and songB at 2 are listed
    in that order.  The reorder that swaps the positions is answered 500
    and the listing stays songA, songB. *)
Example scenario_swap_is_refused :
  let swap := SongsArray [ItemObj (mkReorderUpdate "E1" 2 None);
                          ItemObj (mkReorderUpdate "E2" 1 None)] in
  let r := reorderSetlistSongs db_entries "U1" "S1" swap 5 in
  getSetlistSongs db_entries "U1" "S1" = ok (JSetlistSongs [E1; E2])
  /\ fst r = server_error
  /\ getSetlistSongs (snd r) "U1" "S1" = ok (JSetlistSongs [E1; E2]).
Proof. repeat split. Qed.

(** *** The callback of the transaction, as it is written *)

Lemma reorder_loop_spec (items : list reorder_item) (tbl : list SetlistSong.t) :
  reorder_loop items tbl =
  match objects_of items with
  | Some us => Some (apply_updates us tbl)
  | None => None
  end.
Proof.
  revert tbl. induction items as [|i items IH]; intros tbl; simpl.
  - reflexivity.
  - destruct i as [|u]; [reflexivity|].
    rewrite IH. now destruct (objects_of items).
Qed.

Lemma apply_updates_map (us : list ReorderUpdate) (tbl : list SetlistSong.t) :
  apply_updates us tbl = map (apply_updates_row us) tbl.
Proof.
  revert tbl. induction us as [|u us IH]; intros tbl.
  - simpl. now rewrite map_id.
  - change (apply_updates (u :: us) tbl) with (apply_updates us (apply_update u tbl)).
    rewrite IH. unfold apply_update, SetlistSong.update. rewrite map_map.
    apply map_ext. intros e. reflexivity.
Qed.

Lemma same_frame_refl (x : SetlistSong.t) : same_frame x x.
Proof. now repeat split. Qed.

Lemma same_frame_trans (x y z : SetlistSong.t) :
  same_frame x y -> same_frame y z -> same_frame x z.
Proof.
  unfold same_frame. intros (A1 & A2 & A3 & A4) (B1 & B2 & B3 & B4).
  repeat split; congruence.
Qed.

Lemma apply_update_row_frame (u : ReorderUpdate) (e : SetlistSong.t) :
  same_frame (apply_update_row u e) e.
Proof.
  unfold apply_update_row.
  destruct (SetlistSong.id e =? ru_id u)%string; now repeat split.
Qed.

Lemma apply_updates_row_frame (us : list ReorderUpdate) (e : SetlistSong.t) :
  same_frame (apply_updates_row us e) e.
Proof.
  revert e. induction us as [|u us IH]; intros e; simpl.
  - apply same_frame_refl.
  - eapply same_frame_trans; [apply IH | apply apply_update_row_frame].
Qed.

(** ** C7: references checked by [addSongToSetlist] *)



(** ** C8: the other entries after add-song and remove-song *)

Lemma nth_default_In {A : Type} (n : nat) (x : A) (l : list A) :
  In (nth n (x :: l) x) (x :: l).
Proof.
  destruct (Nat.lt_ge_cases n (length (x :: l))) as [H | H].
  - now apply nth_In.
  - rewrite nth_overflow by exact H. now left.
Qed.

(** Whatever row the database picks, it is a stored entry of the setlist
    for the song. *)
Lemma SetlistSong_findOne_spec (pick : nat) (sid songId : string)
      (tbl : list SetlistSong.t) (r : SetlistSong.t) :
  SetlistSong.findOne pick sid songId tbl = Some r ->
  In r tbl /\ SetlistSong.setlist_id r = sid /\ SetlistSong.song_id r = songId.
Proof.
  unfold SetlistSong.findOne.
  destruct (filter _ tbl) as [|x rest] eqn:E; [discriminate|].
  intros H.
  assert (Hr : nth pick (x :: rest) x = r) by (injection H as H'; exact H').
  pose proof (nth_default_In pick x rest) as Hin.
  rewrite Hr, <- E in Hin. apply filter_In in Hin. destruct Hin as [Hin Hm].
  apply andb_prop in Hm. destruct Hm as [H1 H2].
  apply String.eqb_eq in H1, H2. now repeat split.
Qed.

(** No row is found exactly when no entry of the setlist has the song. *)
Lemma SetlistSong_findOne_None (pick : nat) (sid songId : string)
      (tbl : list SetlistSong.t) :
  SetlistSong.findOne pick sid songId tbl = None <->
  forall e, In e tbl -> SetlistSong.setlist_id e = sid -> SetlistSong.song_id e <> songId.
Proof.
  unfold SetlistSong.findOne.
  destruct (filter _ tbl) as [|x rest] eqn:E.
  - split; [intros _ | reflexivity].
    intros e He Hs Hg.
    assert (Hin : In e (filter (fun e => (SetlistSong.setlist_id e =? sid)%string
                                         && (SetlistSong.song_id e =? songId)%string) tbl)).
    { apply filter_In. split; [exact He|]. now rewrite Hs, Hg, !String.eqb_refl. }
    rewrite E in Hin. destruct Hin.
  - split; [discriminate|]. intros H. exfalso.
    assert (Hin : In x (x :: rest)) by now left.
    rewrite <- E in Hin. apply filter_In in Hin. destruct Hin as [Hin Hm].
    apply andb_prop in Hm. destruct Hm as [H1 H2].
    apply String.eqb_eq in H1, H2. now apply (H x Hin H1).
Qed.

(** C8: a successful [addSongToSetlist] appends one row to the entries and
    a successful [removeSongFromSetlist] deletes the row the database
    found for the song (the rows with that row's id); every other stored
    entry is afterwards the same row, with the position and the block it
    had, at the same place among the others. *)
Theorem entry_mutations_leave_siblings
  (isUUID : string -> bool) (db : DB) (user id : string) :
  (forall b uuid now,
      let r := addSongToSetlist isUUID db user id b uuid now in
      status (fst r) = 201 ->
      exists row,
        setlist_songs (snd r) = setlist_songs db ++ [row]
        /\ SetlistSong.id row = uuid
        /\ SetlistSong.setlist_id row = id
        /\ ab_song_id b = Some (SetlistSong.song_id row))
  /\ (forall songId pick now,
         let r := removeSongFromSetlist db user id songId pick now in
         status (fst r) = 200 ->
         exists removed,
           SetlistSong.findOne pick id songId (setlist_songs db) = Some removed
           /\ In removed (setlist_songs db)
           /\ SetlistSong.setlist_id removed = id
           /\ SetlistSong.song_id removed = songId
           /\ setlist_songs (snd r)
              = filter (fun e => negb (SetlistSong.id e =? SetlistSong.id removed)%string)
                  (setlist_songs db)
           /\ (forall e, In e (setlist_songs db) ->
                         SetlistSong.id e <> SetlistSong.id removed ->
                         In e (setlist_songs (snd r)))
           /\ (forall e, In e (setlist_songs (snd r)) ->
                         In e (setlist_songs db)
                         /\ SetlistSong.id e <> SetlistSong.id removed)).
Proof.
  split.
  - intros b uuid now r. subst r. unfold addSongToSetlist.
    destruct (validate_add isUUID b) as [[sid p]|] eqn:Hv; [|discriminate].
    destruct (Setlist.findByPk id (setlists db)) as [s|]; [|discriminate].
    destruct (member_denied db user s) as [[|]|]; [discriminate| |discriminate].
    destruct (Song.findByPk sid (songs db)); [|discriminate].
    destruct (invalid_block db id (ab_block_id b)); [discriminate|].
    intros _.
    exists (SetlistSong.mk uuid id sid p (or_null (ab_block_id b)) (or_null (ab_notes b))).
    simpl. split; [reflexivity|]. split; [reflexivity|]. split; [reflexivity|].
    unfold validate_add in Hv.
    destruct (ab_song_id b) as [x|]; [|discriminate].
    destruct (ab_position b); [|discriminate].
    destruct (isUUID x); [|discriminate]. congruence.
  - intros songId pick now r. subst r. unfold removeSongFromSetlist.
    destruct (Setlist.findByPk id (setlists db)) as [s|]; [|discriminate].
    destruct (member_denied db user s) as [[|]|]; [discriminate| |discriminate].
    destruct (SetlistSong.findOne pick id songId (setlist_songs db)) as [removed|] eqn:Hone;
      [|discriminate].
    intros _. exists removed. simpl. unfold SetlistSong.destroy.
    destruct (SetlistSong_findOne_spec _ _ _ _ _ Hone) as (Hin & Hsl & Hsg).
    split; [reflexivity|]. split; [exact Hin|]. split; [exact Hsl|]. split; [exact Hsg|].
    split; [reflexivity|]. split.
    + intros e He Hne. apply filter_In. split; [exact He|].
      apply negb_true_iff. now apply String.eqb_neq.
    + intros e He. apply filter_In in He. destruct He as [He Hne].
      split; [exact He|]. apply negb_true_iff in Hne. now apply String.eqb_neq.
Qed.

Lemma entry_mutations_leave_siblings_witness :
  (exists row,
      setlist_songs (snd (addSongToSetlist any_uuid db_entries "U1" "S1"
                            (mkAddBody (Some "songA") (Some 1) None None) "E3" 4))
      = setlist_songs db_entries ++ [row])
  /\ (exists removed,
         setlist_songs (snd (removeSongFromSetlist db_band "U1" "S2" "songA" 0 4))
         = filter (fun e => negb (SetlistSong.id e =? SetlistSong.id removed)%string)
             (setlist_songs db_band)).
Proof.
  destruct (entry_mutations_leave_siblings any_uuid db_entries "U1" "S1") as [Hadd _].
  destruct (entry_mutations_leave_siblings any_uuid db_band "U1" "S2") as [_ Hrem].
  split.
  - destruct (Hadd (mkAddBody (Some "songA") (Some 1) None None) "E3" 4 eq_refl)
      as (row & Hrow & _).
    now exists row.
  - destruct (Hrem "songA" 0%nat 4 eq_refl) as (removed & _ & _ & _ & _ & Hrem' & _).
    now exists removed.
Defined.

(** ** C9: the test on [songs] comes first *)

(** C9: a reorder whose [songs] is missing (falsy), is not an array, or is
    the empty array is answered 400 'Songs array is required' whatever the
    store holds and whoever asks, also when the setlist does not exist or
    the actor may not edit it, and the store is left as it was. *)
Theorem reorder_rejects_bad_songs_first
  (db : DB) (user id : string) (songs_body : songs_field) (now : Z) :
  songs_body = SongsFalsy \/ songs_body = SongsNotArray \/ songs_body = SongsArray [] ->
  reorderSetlistSongs db user id songs_body now
  = (mkResponse 400 (JMsg "Songs array is required"), db)
  /\ error_of (fst (reorderSetlistSongs db user id songs_body now)) = Some InvalidInput.
Proof.
  intros [-> | [-> | ->]]; split; reflexivity.
Qed.

Lemma reorder_rejects_bad_songs_first_witness :
  Setlist.findByPk "S7" (setlists db_entries) = None
  /\ reorderSetlistSongs db_entries "U2" "S7" (SongsArray []) 1
     = (mkResponse 400 (JMsg "Songs array is required"), db_entries)
  /\ error_of (fst (reorderSetlistSongs db_entries "U2" "S7" (SongsArray []) 1))
     = Some InvalidInput.
Proof.
  split; [reflexivity|].
  apply (reorder_rejects_bad_songs_first db_entries "U2" "S7" (SongsArray []) 1).
  right. right. reflexivity.
Defined.

(** ** C10: remove-song in the client and on the server *)

Lemma SetlistSong_destroy_absent (r : SetlistSong.t) (tbl : list SetlistSong.t) :
  ~ In (SetlistSong.id r) (map SetlistSong.id tbl) -> SetlistSong.destroy r tbl = tbl.
Proof.
  unfold SetlistSong.destroy. induction tbl as [|e tbl IH]; simpl; intros H.
  - reflexivity.
  - destruct (String.eqb_spec (SetlistSong.id e) (SetlistSong.id r)) as [E | E]; simpl.
    + exfalso. apply H. now left.
    + rewrite IH; [reflexivity | tauto].
Qed.

(** With a primary key on [id], destroying a stored row takes exactly one
    row out of every selection that holds it. *)
Lemma SetlistSong_destroy_one (f : SetlistSong.t -> bool) (r : SetlistSong.t)
      (tbl : list SetlistSong.t) :
  NoDup (map SetlistSong.id tbl) ->
  In r tbl ->
  f r = true ->
  (length (filter f (SetlistSong.destroy r tbl)) + 1 = length (filter f tbl))%nat.
Proof.
  induction tbl as [|e tbl IH]; simpl; intros Hnd Hin Hf; [destruct Hin|].
  inversion Hnd as [|x l Hnotin Hnd']; subst.
  unfold SetlistSong.destroy in *. simpl.
  destruct (String.eqb_spec (SetlistSong.id e) (SetlistSong.id r)) as [E | E]; simpl.
  - assert (Hr : e = r).
    { destruct Hin as [Hin | Hin]; [exact Hin|].
      exfalso. apply Hnotin. rewrite E. now apply in_map. }
    subst e.
    pose proof (SetlistSong_destroy_absent r tbl Hnotin) as Habs.
    unfold SetlistSong.destroy in Habs. rewrite Habs, Hf. simpl. lia.
  - destruct Hin as [Hin | Hin]; [congruence|].
    specialize (IH Hnd' Hin Hf).
    destruct (f e); simpl; lia.
Qed.

(** C10: when [removeSongFromSetlist] is fulfilled for a song id, the
    reducer keeps exactly the entries of [setlistSongs] with another
    [song_id], in their order, so no entry of that song is left however
    often the song was on the list; the handler of the server, whose table
    has unique ids, takes away one entry of the song, whichever of them
    the database finds. *)
Theorem client_drops_all_server_drops_one
  (s : Slice.SetlistsState) (setlistId songId : string) :
  let s' := Slice.reducer s (Slice.removeSongFromSetlist (Slice.fulfilled (setlistId, songId))) in
  Slice.setlistSongs s'
  = filter (fun x => negb (Slice.song_id x =? songId)%string) (Slice.setlistSongs s)
  /\ (forall x, In x (Slice.setlistSongs s') <->
                In x (Slice.setlistSongs s) /\ Slice.song_id x <> songId)
  /\ (forall db user pick now,
         NoDup (map SetlistSong.id (setlist_songs db)) ->
         status (fst (removeSongFromSetlist db user setlistId songId pick now)) = 200 ->
         (count_song songId
            (setlist_songs (snd (removeSongFromSetlist db user setlistId songId pick now)))
          + 1
          = count_song songId (setlist_songs db))%nat).
Proof.
  simpl. split; [reflexivity|]. split.
  - intros x. rewrite filter_In, negb_true_iff, String.eqb_neq. tauto.
  - intros db user pick now Hnd. unfold removeSongFromSetlist.
    destruct (Setlist.findByPk setlistId (setlists db)) as [sl|]; [|discriminate].
    destruct (member_denied db user sl) as [[|]|]; [discriminate| |discriminate].
    destruct (SetlistSong.findOne pick setlistId songId (setlist_songs db)) as [r|] eqn:Hfind;
      [|discriminate].
    intros _. simpl. unfold count_song.
    destruct (SetlistSong_findOne_spec _ _ _ _ _ Hfind) as (Hin & _ & Hsong).
    apply SetlistSong_destroy_one; trivial. now apply String.eqb_eq.
Qed.

Lemma client_drops_all_server_drops_one_witness :
  Slice.setlistSongs
    (Slice.reducer client_S2 (Slice.removeSongFromSetlist (Slice.fulfilled ("S2", "songA"))))
  = [Slice.mkSetlistSong "F2" "S2" "songB" 2 None None]
  /\ count_song "songA" (setlist_songs db_band) = 2%nat
  /\ status (fst (removeSongFromSetlist db_band "U1" "S2" "songA" 1 4)) = 200
  /\ (count_song "songA"
        (setlist_songs (snd (removeSongFromSetlist db_band "U1" "S2" "songA" 1 4))) + 1
      = count_song "songA" (setlist_songs db_band))%nat.
Proof.
  destruct (client_drops_all_server_drops_one client_S2 "S2" "songA") as (Hc & _ & H).
  split; [rewrite Hc; reflexivity|]. split; [reflexivity|]. split; [reflexivity|].
  apply (H db_band "U1" 1%nat 4).
  - repeat constructor; simpl; intuition discriminate.
  - reflexivity.
Defined.

(** * Properties of the whole controller *)

(** ** The writes of the handlers *)

Lemma truthy_or_null (v : option string) (x : string) :
  or_null v = Some x -> v = Some x /\ truthy x = true.
Proof.
  unfold or_null. destruct v as [s|]; [|discriminate].
  destruct (truthy s) eqn:E; [|discriminate].
  intros H. injection H as <-. now split.
Qed.

Lemma validate_add_fields (isUUID : string -> bool) (b : AddBody) (sid : string) (p : Z) :
  validate_add isUUID b = Some (sid, p) ->
  ab_song_id b = Some sid /\ ab_position b = Some p /\ isUUID sid = true.
Proof.
  unfold validate_add.
  destruct (ab_song_id b) as [x|]; [|discriminate].
  destruct (ab_position b) as [q|]; [|discriminate].
  destruct (isUUID x) eqn:E; [|discriminate].
  intros H. injection H as <- <-. now repeat split.
Qed.

Lemma invalid_block_false (db : DB) (id : string) (v : option string) (row : SetlistSong.t) :
  invalid_block db id v = false ->
  SetlistSong.setlist_id row = id ->
  SetlistSong.block_id row = or_null v ->
  block_of_same_setlist (blocks db) row.
Proof.
  intros Hinv Hid Hblk bk Hbk. rewrite Hblk in Hbk.
  apply truthy_or_null in Hbk. destruct Hbk as [-> Htr].
  unfold invalid_block in Hinv. rewrite Htr in Hinv.
  destruct (Block.findByPk bk (blocks db)) as [blk|]; [|discriminate].
  exists blk. split; [reflexivity|].
  apply negb_false_iff, String.eqb_eq in Hinv. congruence.
Qed.

(** Every handler leaves the store as one of the writes of [effect]. *)
Lemma handle_effect (sv : services) (db : DB) (user : string) (c : call) :
  effect (sv_notEmpty sv) user db (snd (handle sv db user c)).
Proof.
  destruct c as [| b uuid now | id req]; simpl.
  - constructor.
  - unfold createSetlist.
    destruct (truthy_opt (cb_name b)) eqn:Hname; simpl; [|constructor].
    destruct (create_band_check db user (cb_band_id b)); [constructor|].
    destruct (sv_notEmpty sv _) eqn:Hvalid; simpl; [|constructor].
    unfold Setlist_create. simpl.
    destruct (Setlist.findByPk uuid (setlists db)) eqn:Hfresh; simpl; [constructor|].
    apply eff_create; simpl; trivial.
    destruct (cb_name b); [exact Hname | discriminate].
  - destruct req; simpl; try constructor.
    + unfold updateSetlist.
      destruct (Setlist.findByPk id (setlists db)) as [s|] eqn:Hfind; [|constructor].
      destruct (admin_denied db user s) as [[|]|] eqn:Hden; [constructor| |constructor].
      apply admin_denied_false in Hden.
      destruct (name_changed _ s && negb (sv_notEmpty sv _)) eqn:Hvalid;
        [constructor|]. simpl.
      pose proof (Setlist_findByPk_id _ _ _ Hfind) as Hid. subst id.
      apply eff_update with (s := s); trivial.
      * now repeat split.
      * simpl. destruct (truthy_opt (ub_name b)) eqn:Hn; [|trivial].
        destruct (ub_name b); [intros _; exact Hn | discriminate].
      * apply andb_false_iff in Hvalid. destruct Hvalid as [Hsame | Hvalid].
        -- unfold name_changed in Hsame. apply negb_false_iff, String.eqb_eq in Hsame.
           now rewrite Hsame.
        -- apply negb_false_iff in Hvalid. intros _. exact Hvalid.
    + unfold deleteSetlist.
      destruct (Setlist.findByPk id (setlists db)) as [s|] eqn:Hfind; [|constructor].
      destruct (admin_denied db user s) as [[|]|] eqn:Hden; [constructor| |constructor].
      apply admin_denied_false in Hden. simpl.
      pose proof (Setlist_findByPk_id _ _ _ Hfind) as Hid. subst id.
      now apply eff_delete.
    + unfold addSongToSetlist.
      destruct (validate_add (sv_isUUID sv) b) as [[sid p]|] eqn:Hv; [|constructor].
      destruct (Setlist.findByPk id (setlists db)) as [s|] eqn:Hfind; [|constructor].
      destruct (member_denied db user s) as [[|]|] eqn:Hden; [constructor| |constructor].
      apply member_denied_false in Hden.
      destruct (Song.findByPk sid (songs db)) eqn:Hsong; [|constructor].
      destruct (invalid_block db id (ab_block_id b)) eqn:Hblk; [constructor|]. simpl.
      apply (eff_add (sv_notEmpty sv) user db s
               (SetlistSong.mk uuid id sid p (or_null (ab_block_id b)) (or_null (ab_notes b)))
               now); simpl; trivial.
      * congruence.
      * now apply invalid_block_false with (id := id) (v := ab_block_id b).
    + unfold removeSongFromSetlist.
      destruct (Setlist.findByPk id (setlists db)) as [s|] eqn:Hfind; [|constructor].
      destruct (member_denied db user s) as [[|]|] eqn:Hden; [constructor| |constructor].
      apply member_denied_false in Hden.
      destruct (SetlistSong.findOne pick id songId (setlist_songs db)) as [e|] eqn:He;
        [|constructor]. simpl.
      apply SetlistSong_findOne_spec in He. destruct He as (Hin & He & _).
      apply eff_remove; trivial. now rewrite He.
    + rewrite reorder_store. constructor.
Qed.

(** ** Integrity of the store *)

Lemma Setlist_save_ids (changed : bool) (now : Z) (inst : Setlist.t) (tbl : list Setlist.t) :
  map Setlist.id (Setlist.save changed now inst tbl) = map Setlist.id tbl.
Proof.
  unfold Setlist.save. destruct changed; [|reflexivity].
  rewrite map_map. apply map_ext_in. intros s _.
  destruct (String.eqb_spec (Setlist.id s) (Setlist.id inst)) as [E | E];
    [now rewrite E | reflexivity].
Qed.

Lemma Setlist_findByPk_found (pk : string) (tbl : list Setlist.t) :
  Setlist.findByPk pk tbl <> None <-> In pk (map Setlist.id tbl).
Proof.
  unfold Setlist.findByPk. induction tbl as [|s tbl IH]; simpl.
  - tauto.
  - destruct (String.eqb_spec (Setlist.id s) pk) as [E | E].
    + split; [now left | discriminate].
    + rewrite IH. tauto.
Qed.

Lemma Setlist_findByPk_save_found (changed : bool) (now : Z) (inst : Setlist.t)
      (pk : string) (tbl : list Setlist.t) :
  Setlist.findByPk pk tbl <> None ->
  Setlist.findByPk pk (Setlist.save changed now inst tbl) <> None.
Proof.
  rewrite !Setlist_findByPk_found, Setlist_save_ids. trivial.
Qed.

Lemma Setlist_findByPk_app_found (pk : string) (tbl more : list Setlist.t) :
  Setlist.findByPk pk tbl <> None -> Setlist.findByPk pk (tbl ++ more) <> None.
Proof.
  rewrite !Setlist_findByPk_found, map_app, in_app_iff. tauto.
Qed.

Lemma Setlist_findByPk_destroy_found (s : Setlist.t) (pk : string) (tbl : list Setlist.t) :
  pk <> Setlist.id s ->
  Setlist.findByPk pk tbl <> None ->
  Setlist.findByPk pk (Setlist.destroy s tbl) <> None.
Proof.
  intros Hne. rewrite !Setlist_findByPk_found, !in_map_iff.
  intros (x & Hx & Hin). exists x. split; [exact Hx|].
  unfold Setlist.destroy. apply filter_In. split; [exact Hin|].
  apply negb_true_iff, String.eqb_neq. congruence.
Qed.

Lemma NoDup_map_filter {A B : Type} (f : A -> B) (g : A -> bool) (l : list A) :
  NoDup (map f l) -> NoDup (map f (filter g l)).
Proof.
  induction l as [|x l IH]; simpl; intros H; [constructor|].
  inversion H as [|y l' Hnotin Hnd]; subst.
  destruct (g x); simpl; [|now apply IH].
  constructor; [|now apply IH].
  intros Hin. apply Hnotin. apply in_map_iff in Hin. destruct Hin as (z & Hz & Hin).
  apply filter_In in Hin. apply in_map_iff. exists z. tauto.
Qed.

Lemma Block_findByPk_filter (g : Block.t -> bool) (pk : string) (bs : list Block.t)
      (blk : Block.t) :
  Block.findByPk pk bs = Some blk -> g blk = true ->
  Block.findByPk pk (filter g bs) = Some blk.
Proof.
  unfold Block.findByPk. induction bs as [|b bs IH]; simpl; [discriminate|].
  destruct (Block.id b =? pk)%string eqn:E.
  - intros H Hg. injection H as ->. rewrite Hg. simpl. now rewrite E.
  - intros H Hg. destruct (g b); simpl; [rewrite E|]; now apply IH.
Qed.

(** The primary key of [setlists] survives every write. *)
Lemma effect_setlist_ids_unique (v : string -> bool) (user : string) (db db' : DB) :
  effect v user db db' -> setlist_ids_unique db -> setlist_ids_unique db'.
Proof.
  unfold setlist_ids_unique.
  destruct 1 as [ | row Hfresh _ _ _ | s inst changed now _ _ _ _ _ | s _ _
                 | s row now _ _ _ _ | s e now _ _ _]; simpl; intros Hnd;
    try (rewrite Setlist_save_ids; exact Hnd).
  - exact Hnd.
  - rewrite map_app. simpl.
    eapply Permutation_NoDup; [apply Permutation_cons_append|].
    constructor; [|exact Hnd].
    intros Hin. apply Setlist_findByPk_found in Hin. contradiction.
  - unfold Setlist.destroy. now apply NoDup_map_filter.
Qed.

Lemma effect_names_nonempty (v : string -> bool) (user : string) (db db' : DB) :
  effect v user db db' -> setlist_names_nonempty db -> setlist_names_nonempty db'.
Proof.
  unfold setlist_names_nonempty.
  assert (Hsave : forall changed now inst tbl,
             (forall s, In s tbl -> truthy (Setlist.name s) = true) ->
             truthy (Setlist.name inst) = true ->
             forall s, In s (Setlist.save changed now inst tbl) ->
                       truthy (Setlist.name s) = true).
  { intros changed now inst tbl Hall Hinst s Hin. unfold Setlist.save in Hin.
    destruct changed; [|now apply Hall].
    apply in_map_iff in Hin. destruct Hin as (x & Hx & Hin).
    destruct (Setlist.id x =? Setlist.id inst)%string; subst s; [exact Hinst | now apply Hall]. }
  destruct 1 as [ | row _ _ Hname _ | s inst changed now Hfind _ _ Hkeep _ | s _ _
                 | s row now Hfind _ _ _ | s e now Hfind _ _];
    simpl; intros Hall.
  - exact Hall.
  - intros s Hin. apply in_app_iff in Hin. destruct Hin as [Hin | [<- | []]]; auto.
  - apply Hsave; [exact Hall|]. apply Hkeep, Hall. eapply Setlist_findByPk_In, Hfind.
  - intros x Hin. apply filter_In in Hin. now apply Hall.
  - apply Hsave; [exact Hall|]. apply Hall. eapply Setlist_findByPk_In, Hfind.
  - apply Hsave; [exact Hall|]. apply Hall. eapply Setlist_findByPk_In, Hfind.
Qed.

Lemma effect_entries_have_songs (v : string -> bool) (user : string) (db db' : DB) :
  effect v user db db' -> entries_have_songs db -> entries_have_songs db'.
Proof.
  unfold entries_have_songs.
  destruct 1 as [ | row _ _ _ _ | s inst changed now _ _ _ _ _ | s _ _ | s row now _ _ Hsong _
                 | s e now _ _ _]; simpl; intros Hall; trivial.
  - intros e Hin. apply filter_In in Hin. now apply Hall.
  - intros e Hin. apply in_app_iff in Hin. destruct Hin as [Hin | [<- | []]]; auto.
  - intros x Hin. apply filter_In in Hin. now apply Hall.
Qed.

Lemma effect_entries_have_setlists (v : string -> bool) (user : string) (db db' : DB) :
  effect v user db db' -> entries_have_setlists db -> entries_have_setlists db'.
Proof.
  unfold entries_have_setlists.
  destruct 1 as [ | row _ _ _ _ | s inst changed now _ _ _ _ _ | s _ _ | s row now Hfind _ _ _
                 | s e now _ _ _]; simpl; intros Hall; trivial.
  - intros e Hin. now apply Setlist_findByPk_app_found, Hall.
  - intros e Hin. now apply Setlist_findByPk_save_found, Hall.
  - intros e Hin. apply filter_In in Hin. destruct Hin as [Hin Hne].
    apply negb_true_iff, String.eqb_neq in Hne.
    apply Setlist_findByPk_destroy_found; auto.
  - intros e Hin. apply Setlist_findByPk_save_found.
    apply in_app_iff in Hin. destruct Hin as [Hin | [<- | []]]; [auto | congruence].
  - intros x Hin. apply filter_In in Hin.
    now apply Setlist_findByPk_save_found, Hall.
Qed.

Lemma effect_blocks_have_setlists (v : string -> bool) (user : string) (db db' : DB) :
  effect v user db db' -> blocks_have_setlists db -> blocks_have_setlists db'.
Proof.
  unfold blocks_have_setlists.
  destruct 1 as [ | row _ _ _ _ | s inst changed now _ _ _ _ _ | s _ _ | s row now _ _ _ _
                 | s e now _ _ _]; simpl; intros Hall; trivial;
    try (intros b Hin; now apply Setlist_findByPk_save_found, Hall).
  - intros b Hin. now apply Setlist_findByPk_app_found, Hall.
  - intros b Hin. apply filter_In in Hin. destruct Hin as [Hin Hne].
    apply negb_true_iff, String.eqb_neq in Hne.
    apply Setlist_findByPk_destroy_found; auto.
Qed.

Lemma effect_entry_blocks_consistent (v : string -> bool) (user : string) (db db' : DB) :
  effect v user db db' -> entry_blocks_consistent db -> entry_blocks_consistent db'.
Proof.
  unfold entry_blocks_consistent.
  destruct 1 as [ | row _ _ _ _ | s inst changed now _ _ _ _ _ | s _ _ | s row now _ _ _ Hblk
                 | s e now _ _ _]; simpl; intros Hall; trivial.
  - intros e Hin. apply filter_In in Hin. destruct Hin as [Hin Hne].
    apply negb_true_iff, String.eqb_neq in Hne.
    intros bk Hbk. destruct (Hall e Hin bk Hbk) as (blk & Hfind & Hsl).
    exists blk. split; [|exact Hsl].
    apply Block_findByPk_filter; [exact Hfind|].
    apply negb_true_iff, String.eqb_neq. congruence.
  - intros e Hin. apply in_app_iff in Hin. destruct Hin as [Hin | [<- | []]]; auto.
  - intros x Hin. apply filter_In in Hin. now apply Hall.
Qed.

Lemma run_calls_invariant (P : DB -> Prop) (sv : services) :
  (forall user db db', effect (sv_notEmpty sv) user db db' -> P db -> P db') ->
  forall calls db, P db -> P (run_calls sv calls db).
Proof.
  intros Hstep calls. unfold run_calls.
  induction calls as [|[user c] calls IH]; simpl; intros db H; [exact H|].
  apply IH. eapply Hstep; [apply handle_effect | exact H].
Qed.

(** X1: The ids of the stored setlists stay pairwise different through every
    session of calls: [createSetlist] cannot insert a stored id, and no
    other handler writes the id column. *)
Theorem session_keeps_setlist_ids_unique
  (sv : services) (calls : list (string * call)) (db : DB) :
  setlist_ids_unique db -> setlist_ids_unique (run_calls sv calls db).
Proof.
  apply run_calls_invariant. intros user d d'. apply effect_setlist_ids_unique.
Qed.

Lemma session_keeps_setlist_ids_unique_witness :
  setlist_ids_unique (run_calls plain_services session_band db_band).
Proof.
  apply session_keeps_setlist_ids_unique.
  unfold setlist_ids_unique. simpl. repeat constructor. intros [].
Defined.

(** X2: No session gives a stored setlist an empty name: [createSetlist] is
    behind the [notEmpty] check and [updateSetlist] ignores a falsy
    [name]. *)
Theorem session_keeps_names_nonempty
  (sv : services) (calls : list (string * call)) (db : DB) :
  setlist_names_nonempty db -> setlist_names_nonempty (run_calls sv calls db).
Proof.
  apply run_calls_invariant. intros user d d'. apply effect_names_nonempty.
Qed.

Lemma session_keeps_names_nonempty_witness :
  setlist_names_nonempty
    (run_calls plain_services
       [("U1", OnSetlist "S2" (UpdateSetlist (mkUpdateBody (Some "") None None) 7))]
       db_band).
Proof.
  apply session_keeps_names_nonempty.
  intros s [<- | []]. reflexivity.
Defined.




(** X3: References stay valid through every session: every entry names a
    stored song and a stored setlist, and every block a stored setlist. *)
Theorem session_keeps_references
  (sv : services) (calls : list (string * call)) (db : DB) :
  entries_have_songs db /\ entries_have_setlists db /\ blocks_have_setlists db ->
  let db' := run_calls sv calls db in
  entries_have_songs db' /\ entries_have_setlists db' /\ blocks_have_setlists db'.
Proof.
  intros H.
  apply (run_calls_invariant
           (fun d => entries_have_songs d /\ entries_have_setlists d
                     /\ blocks_have_setlists d)); [|exact H].
  intros user d d' Heff (H1 & H2 & H3). repeat split.
  - eapply effect_entries_have_songs; eauto.
  - eapply effect_entries_have_setlists; eauto.
  - eapply effect_blocks_have_setlists; eauto.
Qed.

Lemma db_band_references :
  entries_have_songs db_band /\ entries_have_setlists db_band
  /\ blocks_have_setlists db_band.
Proof.
  repeat split.
  - intros e [<- | [<- | [<- | []]]]; discriminate.
  - intros e [<- | [<- | [<- | []]]]; discriminate.
  - intros b [<- | []]; discriminate.
Qed.

Lemma session_keeps_references_witness :
  let db' := run_calls plain_services session_band db_band in
  entries_have_songs db' /\ entries_have_setlists db' /\ blocks_have_setlists db'.
Proof.
  apply (session_keeps_references plain_services session_band db_band).
  exact db_band_references.
Defined.

(** X4: Through every session, reorder calls included, every entry that has
    a block keeps having a stored block of its own setlist:
    [addSongToSetlist] checks the block, [deleteSetlist] removes entries
    and blocks of the setlist together, and no reorder is committed. *)
Theorem session_keeps_blocks_consistent
  (sv : services) (calls : list (string * call)) (db : DB) :
  entry_blocks_consistent db ->
  entry_blocks_consistent (run_calls sv calls db).
Proof.
  apply run_calls_invariant. intros user d d'. apply effect_entry_blocks_consistent.
Qed.

Lemma session_keeps_blocks_consistent_witness :
  entry_blocks_consistent
    (run_calls plain_services
       (session_band
        ++ [("U1", OnSetlist "S2"
                     (ReorderSetlistSongs
                        (SongsArray [ItemObj (mkReorderUpdate "F1" 9 (Some "B1"))]) 8))])
       db_band).
Proof.
  apply session_keeps_blocks_consistent.
  intros e [<- | [<- | [<- | []]]] bk Hbk; discriminate Hbk.
Defined.



(** ** What the controller never writes *)

(** X6: No session writes the songs, the bands or the memberships; so what
    [isUserBandMember] answers for a user and a band never changes. *)
Theorem session_never_writes_catalog
  (sv : services) (calls : list (string * call)) (db : DB) :
  let db' := run_calls sv calls db in
  songs db' = songs db
  /\ bands db' = bands db
  /\ band_members db' = band_members db
  /\ (forall user band, isUserBandMember db' user band = isUserBandMember db user band).
Proof.
  assert (H : songs (run_calls sv calls db) = songs db
              /\ bands (run_calls sv calls db) = bands db
              /\ band_members (run_calls sv calls db) = band_members db).
  { apply (run_calls_invariant
             (fun d => songs d = songs db /\ bands d = bands db
                       /\ band_members d = band_members db)); [|now repeat split].
    intros user d d' Heff. destruct Heff; simpl; trivial. }
  destruct H as (H1 & H2 & H3). simpl. repeat split; trivial.
Qed.

Lemma handle_unsuccessful (sv : services) (db : DB) (user : string) (c : call) :
  status (fst (handle sv db user c)) <> 200 ->
  status (fst (handle sv db user c)) <> 201 ->
  snd (handle sv db user c) = db.
Proof.
  destruct c as [| b uuid now | id req]; simpl.
  - reflexivity.
  - unfold createSetlist.
    destruct (negb (truthy_opt (cb_name b))); [reflexivity|].
    destruct (create_band_check db user (cb_band_id b)); [reflexivity|].
    destruct (negb (sv_notEmpty sv _)); [reflexivity|].
    destruct (Setlist_create _ (setlists db)); [|reflexivity].
    simpl. congruence.
  - destruct req; simpl; trivial.
    + unfold updateSetlist.
      destruct (Setlist.findByPk id (setlists db)) as [s|]; [|reflexivity].
      destruct (admin_denied db user s) as [[|]|]; [reflexivity| |reflexivity].
      destruct (name_changed _ s && negb (sv_notEmpty sv _)); [reflexivity|].
      simpl. congruence.
    + unfold deleteSetlist.
      destruct (Setlist.findByPk id (setlists db)) as [s|]; [|reflexivity].
      destruct (admin_denied db user s) as [[|]|]; [reflexivity| |reflexivity].
      simpl. congruence.
    + unfold addSongToSetlist.
      destruct (validate_add (sv_isUUID sv) b) as [[sid p]|]; [|reflexivity].
      destruct (Setlist.findByPk id (setlists db)) as [s|]; [|reflexivity].
      destruct (member_denied db user s) as [[|]|]; [reflexivity| |reflexivity].
      destruct (Song.findByPk sid (songs db)); [|reflexivity].
      destruct (invalid_block db id (ab_block_id b)); [reflexivity|]. simpl. congruence.
    + unfold removeSongFromSetlist.
      destruct (Setlist.findByPk id (setlists db)) as [s|]; [|reflexivity].
      destruct (member_denied db user s) as [[|]|]; [reflexivity| |reflexivity].
      destruct (SetlistSong.findOne pick id songId (setlist_songs db)); [|reflexivity].
      simpl. congruence.
    + intros _ _. apply reorder_store.
Qed.

(** X7: A call that is not answered 200 or 201 leaves the store as it was. *)
Theorem error_answers_leave_store
  (sv : services) (db : DB) (user : string) (c : call) :
  let r := handle sv db user c in
  status (fst r) <> 200 -> status (fst r) <> 201 -> snd r = db.
Proof.
  apply handle_unsuccessful.
Qed.

Lemma error_answers_leave_store_witness :
  snd (handle plain_services db_band "U9" (OnSetlist "S2" DeleteSetlist)) = db_band.
Proof.
  apply (error_answers_leave_store plain_services db_band "U9" (OnSetlist "S2" DeleteSetlist));
    discriminate.
Defined.

(** What a handler that writes answers an actor who is not the creator,
    once the request has passed the input checks: 403 for a setlist
    without a band and 500 for a setlist with one. *)
Lemma non_creator_write (sv : services) (db : DB) (user id : string) (s : Setlist.t)
      (req : request) :
  Setlist.findByPk id (setlists db) = Some s ->
  Setlist.created_by s <> user ->
  is_read req = false ->
  rejected_on_input (sv_isUUID sv) req = false ->
  handle sv db user (OnSetlist id req)
  = (if truthy_opt (Setlist.band_id s)
     then server_error
     else mkResponse 403
            (JMsg match req with
                  | DeleteSetlist => "You do not have permission to delete this setlist"
                  | GenerateShareLink _ _ =>
                      "You do not have permission to share this setlist"
                  | _ => "You do not have permission to update this setlist"
                  end),
     db).
Proof.
  intros Hfind Hc Hread Hin.
  pose proof (other_member_denied db user s Hc) as Hmd.
  pose proof (other_admin_denied db user s Hc) as Had.
  destruct req; simpl in *; try discriminate.
  - unfold updateSetlist. rewrite Hfind, Had.
    now destruct (truthy_opt (Setlist.band_id s)).
  - unfold deleteSetlist. rewrite Hfind, Had.
    now destruct (truthy_opt (Setlist.band_id s)).
  - unfold addSongToSetlist.
    destruct (validate_add (sv_isUUID sv) b) as [[sid p]|]; [|discriminate].
    rewrite Hfind, Hmd. now destruct (truthy_opt (Setlist.band_id s)).
  - unfold removeSongFromSetlist. rewrite Hfind, Hmd.
    now destruct (truthy_opt (Setlist.band_id s)).
  - rewrite reorder_cases, Hin, Hfind, Hmd.
    now destruct (truthy_opt (Setlist.band_id s)).
  - unfold generateShareLink. rewrite Hfind, Hmd.
    now destruct (truthy_opt (Setlist.band_id s)).
Qed.

(** X8: Only the creator of a setlist can change the store through a route
    of that setlist: for every other actor, member of the band or not,
    and for a setlist id that is not stored, every request leaves the
    store as it was, public setlist or not. *)
Theorem only_creator_writes
  (sv : services) (db : DB) (user id : string) (req : request) :
  (forall s, Setlist.findByPk id (setlists db) = Some s ->
             Setlist.created_by s <> user) ->
  snd (handle sv db user (OnSetlist id req)) = db.
Proof.
  intros Hden. simpl.
  destruct (Setlist.findByPk id (setlists db)) as [s|] eqn:Hfind.
  - specialize (Hden s eq_refl).
    pose proof (other_member_denied db user s Hden) as Hmd.
    pose proof (other_admin_denied db user s Hden) as Had.
    destruct req; simpl; trivial.
    + unfold updateSetlist. rewrite Hfind, Had.
      now destruct (truthy_opt (Setlist.band_id s)).
    + unfold deleteSetlist. rewrite Hfind, Had.
      now destruct (truthy_opt (Setlist.band_id s)).
    + unfold addSongToSetlist.
      destruct (validate_add (sv_isUUID sv) b) as [[sid p]|]; [|reflexivity].
      rewrite Hfind, Hmd. now destruct (truthy_opt (Setlist.band_id s)).
    + unfold removeSongFromSetlist. rewrite Hfind, Hmd.
      now destruct (truthy_opt (Setlist.band_id s)).
    + apply reorder_store.
  - destruct req; simpl; trivial.
    + unfold updateSetlist. now rewrite Hfind.
    + unfold deleteSetlist. now rewrite Hfind.
    + unfold addSongToSetlist.
      destruct (validate_add (sv_isUUID sv) b) as [[sid p]|]; [|reflexivity].
      now rewrite Hfind.
    + unfold removeSongFromSetlist. now rewrite Hfind.
    + apply reorder_store.
Qed.

Lemma only_creator_writes_witness :
  snd (handle plain_services db_band "U2"
         (OnSetlist "S2" (RemoveSongFromSetlist "songA" 0 3))) = db_band.
Proof.
  apply (only_creator_writes plain_services db_band "U2" "S2"
           (RemoveSongFromSetlist "songA" 0 3)).
  intros s Hs. injection Hs as <-. discriminate.
Defined.

(** ** Public setlists *)

(** The listing that [getSetlistSongs] answers an actor who passes the
    access test. *)
Lemma getSetlistSongs_listing (db : DB) (user id : string) (s : Setlist.t) :
  Setlist.findByPk id (setlists db) = Some s ->
  Setlist.created_by s = user \/ Setlist.is_public s = true ->
  getSetlistSongs db user id
  = ok (JSetlistSongs (SetlistSong.findAll_ordered id (setlist_songs db))).
Proof.
  intros Hfind Hacc. apply (hasAccess_true db) in Hacc.
  unfold getSetlistSongs. now rewrite Hfind, Hacc.
Qed.

(** X9: A public setlist can be read by every authenticated user: list-songs
    answers 200 with the entries of the setlist in ascending position,
    get-by-id answers 200 and the PDF export sends what the PDF service
    made.  The Spotify export is answered 500 for everyone, because the
    lookup of the Spotify token throws.  Nobody but the creator can write
    it: every other request that passes the input checks of its handler
    is answered 403 when the setlist has no band and 500 when it has one,
    and the store is left as it was. *)
Theorem public_setlist_is_read_only
  (sv : services) (db : DB) (user id : string) (s : Setlist.t) :
  Setlist.findByPk id (setlists db) = Some s ->
  Setlist.is_public s = true ->
  (exists l,
      getSetlistSongs db user id = ok (JSetlistSongs l)
      /\ StronglySorted position_le l
      /\ Permutation
           (filter (fun e => (SetlistSong.setlist_id e =? id)%string) (setlist_songs db)) l)
  /\ status (getSetlistById db user id) = 200
  /\ (forall pdf, sv_generateSetlistPDF sv s
                    (SetlistSong.findAll_ordered id (setlist_songs db)) = Some pdf ->
                  exportSetlistToPDF (sv_generateSetlistPDF sv) db user id = ok (SendPdf pdf))
  /\ (forall name, truthy name = true ->
                   exportSetlistToSpotify (sv_createPlaylistFromSetlist sv) db user id
                     (Some name)
                   = server_error)
  /\ (Setlist.created_by s <> user ->
      forall req, is_read req = false ->
                  rejected_on_input (sv_isUUID sv) req = false ->
                  snd (handle sv db user (OnSetlist id req)) = db
                  /\ error_of (fst (handle sv db user (OnSetlist id req)))
                     = Some (if truthy_opt (Setlist.band_id s)
                             then ServerError else PermissionDenied)).
Proof.
  intros Hfind Hpub.
  assert (Hacc : hasAccess db user s = Some true).
  { apply hasAccess_true. now right. }
  split; [|split; [|split; [|split]]].
  - exists (SetlistSong.findAll_ordered id (setlist_songs db)).
    split; [apply (getSetlistSongs_listing db user id s Hfind); now right|].
    split; [apply order_by_position_sorted | apply order_by_position_perm].
  - unfold getSetlistById, hasAccess_byId. rewrite Hfind, Hpub.
    now destruct (Setlist.created_by s =? user)%string.
  - intros pdf Hpdf. unfold exportSetlistToPDF. now rewrite Hfind, Hacc, Hpdf.
  - intros name Hname. unfold exportSetlistToSpotify. simpl. now rewrite Hname, Hfind, Hacc.
  - intros Hc req Hread Hin.
    rewrite (non_creator_write sv db user id s req Hfind Hc Hread Hin).
    now destruct (truthy_opt (Setlist.band_id s)).
Qed.

Lemma public_setlist_is_read_only_witness :
  (exists l, getSetlistSongs db_public "U7" "S5" = ok (JSetlistSongs l)
             /\ StronglySorted position_le l
             /\ Permutation
                  (filter (fun e => (SetlistSong.setlist_id e =? "S5")%string)
                     (setlist_songs db_public)) l)
  /\ error_of (fst (handle plain_services db_public "U7"
                      (OnSetlist "S5" (RemoveSongFromSetlist "songA" 0 2))))
     = Some PermissionDenied.
Proof.
  destruct (public_setlist_is_read_only plain_services db_public "U7" "S5" S5
              eq_refl eq_refl) as (Hlist & _ & _ & _ & Hwrite).
  split; [exact Hlist|].
  apply (Hwrite ltac:(discriminate) (RemoveSongFromSetlist "songA" 0 2) eq_refl eq_refl).
Defined.

(** ** [updateSetlist] *)

Lemma Setlist_findByPk_save_other (changed : bool) (now : Z) (inst : Setlist.t)
      (pk : string) (tbl : list Setlist.t) :
  pk <> Setlist.id inst ->
  Setlist.findByPk pk (Setlist.save changed now inst tbl) = Setlist.findByPk pk tbl.
Proof.
  intros Hne. unfold Setlist.findByPk, Setlist.save.
  destruct changed; [|reflexivity].
  induction tbl as [|x tbl IH]; simpl; [reflexivity|].
  destruct (String.eqb_spec (Setlist.id x) (Setlist.id inst)) as [E | E]; simpl.
  - destruct (String.eqb_spec (Setlist.id inst) pk) as [E' | _]; [congruence|].
    destruct (String.eqb_spec (Setlist.id x) pk) as [E' | _]; [congruence | exact IH].
  - destruct (Setlist.id x =? pk)%string; [reflexivity | exact IH].
Qed.



(** A name that the validator of the model refuses is not stored: the
    update is answered 500 and writes nothing, although the handler takes
    every truthy name. *)
Example updateSetlist_blank_name :
  updateSetlist not_blank db_band "U1" "S2" (mkUpdateBody (Some "  ") None None) 7
  = (server_error, db_band).
Proof. reflexivity. Qed.

(** Saving an instance with no changed attribute sends nothing: the row,
    its [updated_at] included, stays. *)
Example updateSetlist_without_change :
  updateSetlist not_blank db_band "U1" "S2" (mkUpdateBody (Some "Tour") None None) 7
  = (ok (JSetlist S2), db_band).
Proof. reflexivity. Qed.

(** ** [createSetlist] *)

Lemma Setlist_findByPk_app_new (row : Setlist.t) (tbl : list Setlist.t) :
  Setlist.findByPk (Setlist.id row) tbl = None ->
  Setlist.findByPk (Setlist.id row) (tbl ++ [row]) = Some row.
Proof.
  unfold Setlist.findByPk. induction tbl as [|x tbl IH]; simpl.
  - now rewrite String.eqb_refl.
  - destruct (Setlist.id x =? Setlist.id row)%string; [discriminate | exact IH].
Qed.

Lemma filter_all_true {A : Type} (f : A -> bool) (l : list A) :
  (forall x, In x l -> f x = true) -> filter f l = l.
Proof.
  induction l as [|x l IH]; simpl; intros H; [reflexivity|].
  rewrite (H x (or_introl eq_refl)), IH; auto.
Qed.


Lemma createSetlist_success (notEmpty : string -> bool) (db : DB) (user : string)
      (b : CreateBody) (uuid : string) (now : Z) :
  status (fst (createSetlist notEmpty db user b uuid now)) = 201 ->
  Setlist.findByPk uuid (setlists db) = None
  /\ create_band_check db user (cb_band_id b) = None
  /\ truthy_opt (cb_name b) = true
  /\ notEmpty (match cb_name b with Some n => n | None => "" end) = true
  /\ snd (createSetlist notEmpty db user b uuid now)
     = with_setlists db
         (setlists db ++
          [Setlist.mk uuid (match cb_name b with Some n => n | None => "" end)
             (cb_description b) (or_null (cb_band_id b)) user
             (match cb_is_public b with Some p => p | None => false end) now now]).
Proof.
  unfold createSetlist.
  destruct (truthy_opt (cb_name b)); [|discriminate]. simpl.
  destruct (create_band_check db user (cb_band_id b)) as [resp|] eqn:Hchk.
  { (* an answer of the band test is 404 or 403 *)
    unfold create_band_check in Hchk.
    destruct (cb_band_id b) as [bd|]; [|discriminate].
    destruct (truthy bd); [|discriminate].
    destruct (Band.findByPk bd (bands db)); [|injection Hchk as <-; discriminate].
    destruct (existsb _ _); [discriminate | injection Hchk as <-; discriminate]. }
  destruct (notEmpty _) eqn:Hvalid; [|discriminate].
  unfold Setlist_create. simpl.
  destruct (Setlist.findByPk uuid (setlists db)) eqn:Hfresh; [discriminate|].
  intros _. now repeat split.
Qed.



(** A name of white space passes the check of the route and is refused by
    the model: the create is answered 500. *)
Example createSetlist_blank_name :
  createSetlist not_blank db_band "U2" (mkCreateBody (Some "  ") None None None) "S4" 6
  = (server_error, db_band).
Proof. reflexivity. Qed.

(** X12: Creating a setlist and deleting it again gives back the store, when
    no stored entry or block already carried the new id as its setlist. *)
Theorem create_then_delete_restores
  (notEmpty : string -> bool) (db : DB) (user : string) (b : CreateBody) (uuid : string)
  (now : Z) :
  status (fst (createSetlist notEmpty db user b uuid now)) = 201 ->
  (forall e, In e (setlist_songs db) -> SetlistSong.setlist_id e <> uuid) ->
  (forall bl, In bl (blocks db) -> Block.setlist_id bl <> uuid) ->
  deleteSetlist (snd (createSetlist notEmpty db user b uuid now)) user uuid
  = (ok (JMsg "Setlist deleted"), db).
Proof.
  intros Hok Hentries Hblocks.
  destruct (createSetlist_success notEmpty db user b uuid now Hok)
    as (Hfresh & _ & _ & _ & ->).
  set (s' := Setlist.mk uuid _ _ _ _ _ _ _).
  assert (Hnew : Setlist.findByPk uuid (setlists db ++ [s']) = Some s').
  { apply (Setlist_findByPk_app_new s'). exact Hfresh. }
  unfold deleteSetlist. simpl setlists. rewrite Hnew.
  assert (Hadm : admin_denied (with_setlists db (setlists db ++ [s'])) user s'
                 = Some false).
  { unfold admin_denied. simpl. now rewrite String.eqb_refl. }
  rewrite Hadm. f_equal.
  unfold delete_children. simpl.
  assert (H1 : SetlistSong.destroy_where_setlist uuid (setlist_songs db) = setlist_songs db).
  { apply filter_all_true. intros e He'. apply negb_true_iff, String.eqb_neq. auto. }
  assert (H2 : Block.destroy_where_setlist uuid (blocks db) = blocks db).
  { apply filter_all_true. intros e He'. apply negb_true_iff, String.eqb_neq. auto. }
  assert (H3 : Setlist.destroy s' (setlists db ++ [s']) = setlists db).
  { unfold Setlist.destroy. rewrite filter_app. simpl.
    rewrite String.eqb_refl. simpl. rewrite app_nil_r.
    apply filter_all_true. intros x Hx. apply negb_true_iff, String.eqb_neq.
    intros E. apply (proj2 (Setlist_findByPk_found uuid (setlists db))); [|exact Hfresh].
    apply in_map_iff. exists x. split; [exact E | exact Hx]. }
  rewrite H1, H2, H3. unfold with_setlists, with_blocks, with_setlist_songs. simpl.
  now destruct db.
Qed.

Lemma create_then_delete_restores_witness :
  deleteSetlist
    (snd (createSetlist not_blank db_band "U2"
            (mkCreateBody (Some "Encore") None (Some "band1") None) "S4" 6)) "U2" "S4"
  = (ok (JMsg "Setlist deleted"), db_band).
Proof.
  apply (create_then_delete_restores not_blank db_band "U2"
           (mkCreateBody (Some "Encore") None (Some "band1") None) "S4" 6).
  - reflexivity.
  - intros e [<- | [<- | [<- | []]]]; discriminate.
  - intros bl [<- | []]; discriminate.
Defined.

(** ** Adding and removing songs *)

Lemma SetlistSong_findByPk_None (pk : string) (tbl : list SetlistSong.t) :
  SetlistSong.findByPk pk tbl = None <-> ~ In pk (map SetlistSong.id tbl).
Proof.
  unfold SetlistSong.findByPk. induction tbl as [|e tbl IH]; simpl.
  - tauto.
  - destruct (SetlistSong.id e =? pk)%string eqn:E.
    + apply String.eqb_eq in E. split; [discriminate | tauto].
    + apply String.eqb_neq in E. tauto.
Qed.

Lemma touch_findByPk (db : DB) (id : string) (s : Setlist.t) (now : Z) :
  Setlist.findByPk id (setlists db) = Some s ->
  Setlist.findByPk id (setlists (touch db s now)) = Some (Setlist.set_updated_at now s).
Proof.
  intros Hfind. simpl. apply Setlist_findByPk_save.
  - eapply Setlist_findByPk_id, Hfind.
  - congruence.
Qed.

Lemma addSongToSetlist_success (isUUID : string -> bool) (db : DB) (user id : string)
      (b : AddBody) (uuid : string) (now : Z) :
  status (fst (addSongToSetlist isUUID db user id b uuid now)) = 201 ->
  exists s sid p,
    validate_add isUUID b = Some (sid, p)
    /\ Setlist.findByPk id (setlists db) = Some s
    /\ Setlist.created_by s = user
    /\ Song.findByPk sid (songs db) <> None
    /\ invalid_block db id (ab_block_id b) = false
    /\ snd (addSongToSetlist isUUID db user id b uuid now)
       = touch (with_setlist_songs db
                  (setlist_songs db ++
                   [SetlistSong.mk uuid id sid p (or_null (ab_block_id b))
                      (or_null (ab_notes b))])) s now.
Proof.
  unfold addSongToSetlist.
  destruct (validate_add isUUID b) as [[sid p]|]; [|discriminate].
  destruct (Setlist.findByPk id (setlists db)) as [s|]; [|discriminate].
  destruct (member_denied db user s) as [[|]|] eqn:Hden; [discriminate| |discriminate].
  apply member_denied_false in Hden.
  destruct (Song.findByPk sid (songs db)) eqn:Hsong; [|discriminate].
  destruct (invalid_block db id (ab_block_id b)); [discriminate|].
  intros _. exists s, sid, p. repeat split; trivial. congruence.
Qed.

(** The one entry of a song that was not on the list is the one found. *)
Lemma SetlistSong_findOne_fresh (pick : nat) (id sid : string) (tbl : list SetlistSong.t)
      (row : SetlistSong.t) :
  (forall e, In e tbl -> SetlistSong.setlist_id e = id -> SetlistSong.song_id e <> sid) ->
  SetlistSong.setlist_id row = id ->
  SetlistSong.song_id row = sid ->
  SetlistSong.findOne pick id sid (tbl ++ [row]) = Some row.
Proof.
  intros Habs Hid Hsid. unfold SetlistSong.findOne. rewrite filter_app. simpl.
  rewrite Hid, Hsid, !String.eqb_refl. simpl.
  assert (Hnil : filter (fun e => (SetlistSong.setlist_id e =? id)%string
                                  && (SetlistSong.song_id e =? sid)%string) tbl = []).
  { induction tbl as [|x tbl IH]; simpl; [reflexivity|].
    destruct (String.eqb_spec (SetlistSong.setlist_id x) id) as [E | E]; simpl.
    - destruct (String.eqb_spec (SetlistSong.song_id x) sid) as [E' | E'].
      + exfalso. now apply (Habs x (or_introl eq_refl) E).
      + apply IH. intros e He. apply Habs. now right.
    - apply IH. intros e He. apply Habs. now right. }
  rewrite Hnil. simpl. destruct pick as [|[|n]]; reflexivity.
Qed.

(** X13: Remove-song after a successful add-song of the same song (with a
    fresh entry id) is answered 200 and deletes one stored entry of the
    setlist for that song, the one the database finds.  If the song was
    not on the setlist before, that entry is the new one and the entries
    are again what they were. *)
Theorem add_then_remove
  (isUUID : string -> bool) (db : DB) (user id : string) (b : AddBody)
  (uuid sid : string) (pick : nat) (now now' : Z) :
  status (fst (addSongToSetlist isUUID db user id b uuid now)) = 201 ->
  ab_song_id b = Some sid ->
  SetlistSong.findByPk uuid (setlist_songs db) = None ->
  let db1 := snd (addSongToSetlist isUUID db user id b uuid now) in
  let r2 := removeSongFromSetlist db1 user id sid pick now' in
  status (fst r2) = 200
  /\ (exists removed,
         In removed (setlist_songs db1)
         /\ SetlistSong.setlist_id removed = id
         /\ SetlistSong.song_id removed = sid
         /\ setlist_songs (snd r2) = SetlistSong.destroy removed (setlist_songs db1))
  /\ ((forall e, In e (setlist_songs db) -> SetlistSong.setlist_id e = id ->
                 SetlistSong.song_id e <> sid) ->
      setlist_songs (snd r2) = setlist_songs db).
Proof.
  intros Hok Hsid Hfresh db1 r2. subst r2 db1.
  destruct (addSongToSetlist_success isUUID db user id b uuid now Hok)
    as (s & sid' & p & Hv & Hfind & Hcre & _ & _ & ->).
  apply validate_add_fields in Hv. destruct Hv as (Hsid' & _ & _).
  assert (sid' = sid) by congruence. subst sid'.
  set (row := SetlistSong.mk uuid id sid p _ _).
  unfold removeSongFromSetlist.
  rewrite (touch_findByPk _ id s now) by exact Hfind.
  assert (Hden : member_denied
                   (touch (with_setlist_songs db (setlist_songs db ++ [row])) s now)
                   user (Setlist.set_updated_at now s) = Some false).
  { apply member_denied_false. exact Hcre. }
  rewrite Hden. simpl setlist_songs.
  apply SetlistSong_findByPk_None in Hfresh.
  destruct (SetlistSong.findOne pick id sid (setlist_songs db ++ [row])) as [removed|]
    eqn:Hone.
  - simpl. split; [reflexivity|]. split.
    + destruct (SetlistSong_findOne_spec _ _ _ _ _ Hone) as (Hin & Hsl & Hsg).
      exists removed. now repeat split.
    + intros Habs.
      rewrite (SetlistSong_findOne_fresh pick id sid (setlist_songs db) row Habs
                 eq_refl eq_refl) in Hone.
      injection Hone as <-.
      unfold SetlistSong.destroy. rewrite filter_app. simpl.
      rewrite String.eqb_refl. simpl. rewrite app_nil_r.
      apply (SetlistSong_destroy_absent row). exact Hfresh.
  - exfalso.
    apply (proj1 (SetlistSong_findOne_None pick id sid (setlist_songs db ++ [row])) Hone row).
    + apply in_app_iff. right. now left.
    + reflexivity.
    + reflexivity.
Qed.

Lemma add_then_remove_witness :
  setlist_songs
    (snd (removeSongFromSetlist
            (snd (addSongToSetlist any_uuid db_public "U1" "S5"
                    (mkAddBody (Some "songB") (Some 2) None None) "P2" 3))
            "U1" "S5" "songB" 0 4))
  = setlist_songs db_public
  /\ status
       (fst (removeSongFromSetlist
               (snd (addSongToSetlist any_uuid db_band "U1" "S2"
                       (mkAddBody (Some "songA") (Some 4) None None) "F4" 3))
               "U1" "S2" "songA" 2 4)) = 200.
Proof.
  split.
  - destruct (add_then_remove any_uuid db_public "U1" "S5"
                (mkAddBody (Some "songB") (Some 2) None None) "P2" "songB" 0 3 4
                eq_refl eq_refl eq_refl) as (_ & _ & H).
    apply H. intros e [<- | []] _. discriminate.
  - destruct (add_then_remove any_uuid db_band "U1" "S2"
                (mkAddBody (Some "songA") (Some 4) None None) "F4" "songA" 2 3 4
                eq_refl eq_refl eq_refl) as (H & _).
    exact H.
Defined.

(** ** The listing after an add *)

(** X14: After a successful add-song the listing of the setlist holds the
    entries it held before and the new entry, each once, in ascending
    position; where the new entry stands among entries of its own
    position is up to the database. *)
Theorem add_puts_entry_in_listing
  (isUUID : string -> bool) (db : DB) (user id : string) (b : AddBody)
  (uuid : string) (now : Z) :
  let r := addSongToSetlist isUUID db user id b uuid now in
  status (fst r) = 201 ->
  exists row before after,
    SetlistSong.id row = uuid
    /\ SetlistSong.setlist_id row = id
    /\ ab_position b = Some (SetlistSong.position row)
    /\ getSetlistSongs db user id = ok (JSetlistSongs before)
    /\ getSetlistSongs (snd r) user id = ok (JSetlistSongs after)
    /\ Permutation (row :: before) after
    /\ StronglySorted position_le after.
Proof.
  intros r Hok. subst r.
  destruct (addSongToSetlist_success isUUID db user id b uuid now Hok)
    as (s & sid & p & Hv & Hfind & Hcre & _ & _ & ->).
  apply validate_add_fields in Hv. destruct Hv as (_ & Hp & _).
  set (row := SetlistSong.mk uuid id sid p _ _).
  set (db1 := touch (with_setlist_songs db (setlist_songs db ++ [row])) s now).
  exists row, (SetlistSong.findAll_ordered id (setlist_songs db)),
    (SetlistSong.findAll_ordered id (setlist_songs db1)).
  split; [reflexivity|]. split; [reflexivity|]. split; [exact Hp|].
  split; [|split; [|split]].
  - apply (getSetlistSongs_listing db user id s Hfind). now left.
  - apply (getSetlistSongs_listing db1 user id (Setlist.set_updated_at now s)).
    + now apply touch_findByPk.
    + left. exact Hcre.
  - unfold SetlistSong.findAll_ordered. simpl setlist_songs.
    rewrite filter_app. simpl. rewrite String.eqb_refl.
    eapply perm_trans; [|apply order_by_position_perm].
    eapply perm_trans; [|apply Permutation_cons_append].
    apply perm_skip, Permutation_sym, order_by_position_perm.
  - apply order_by_position_sorted.
Qed.

Lemma add_puts_entry_in_listing_witness :
  exists row before after,
    SetlistSong.id row = "F4"
    /\ getSetlistSongs db_band "U1" "S2" = ok (JSetlistSongs before)
    /\ getSetlistSongs
         (snd (addSongToSetlist any_uuid db_band "U1" "S2"
                 (mkAddBody (Some "songB") (Some 2) None None) "F4" 3)) "U1" "S2"
       = ok (JSetlistSongs after)
    /\ Permutation (row :: before) after.
Proof.
  destruct (add_puts_entry_in_listing any_uuid db_band "U1" "S2"
              (mkAddBody (Some "songB") (Some 2) None None) "F4" 3 eq_refl)
    as (row & before & after & H1 & _ & _ & H2 & H3 & H4 & _).
  exists row, before, after.
  split; [exact H1 | split; [exact H2 | split; [exact H3 | exact H4]]].
Defined.

(** ** More on reordering *)

Lemma Forall2_same_frame_map (f : SetlistSong.t -> SetlistSong.t) (l : list SetlistSong.t) :
  (forall e, same_frame (f e) e) -> Forall2 same_frame (map f l) l.
Proof.
  intros H. induction l as [|e l IH]; simpl; constructor; auto.
Qed.

(** X15: A reorder, whatever its answer, neither adds nor removes an entry and
    writes no column but position and block: the stored entries are, row
    by row, the rows from before with the same id, setlist, song and
    notes.  Blocks are not written. *)
Theorem reorder_only_moves
  (db : DB) (user id : string) (songs_body : songs_field) (now : Z) :
  let r := reorderSetlistSongs db user id songs_body now in
  Forall2 same_frame (setlist_songs (snd r)) (setlist_songs db)
  /\ length (setlist_songs (snd r)) = length (setlist_songs db)
  /\ blocks (snd r) = blocks db.
Proof.
  simpl. rewrite reorder_store.
  split; [|now split].
  rewrite <- (map_id (setlist_songs db)) at 1.
  apply Forall2_same_frame_map. apply same_frame_refl.
Qed.

(** ** Calls on one setlist and the rows of the others *)

Lemma NoDup_map_In_inj {A B : Type} (f : A -> B) (l : list A) (x y : A) :
  NoDup (map f l) -> In x l -> In y l -> f x = f y -> x = y.
Proof.
  induction l as [|a l IH]; simpl; intros Hnd Hx Hy Hf; [destruct Hx|].
  inversion Hnd as [|? ? Hnotin Hnd']; subst.
  destruct Hx as [-> | Hx], Hy as [-> | Hy]; trivial.
  - exfalso. apply Hnotin. rewrite Hf. now apply in_map.
  - exfalso. apply Hnotin. rewrite <- Hf. now apply in_map.
  - now apply IH.
Qed.

Lemma Setlist_findByPk_destroy_other (s : Setlist.t) (pk : string) (tbl : list Setlist.t) :
  pk <> Setlist.id s ->
  Setlist.findByPk pk (Setlist.destroy s tbl) = Setlist.findByPk pk tbl.
Proof.
  intros Hne. unfold Setlist.findByPk, Setlist.destroy.
  induction tbl as [|x tbl IH]; simpl; [reflexivity|].
  destruct (String.eqb_spec (Setlist.id x) (Setlist.id s)) as [E | E]; simpl.
  - destruct (String.eqb_spec (Setlist.id x) pk) as [E' | _]; [congruence | exact IH].
  - destruct (Setlist.id x =? pk)%string; [reflexivity | exact IH].
Qed.

(** X17: A request on one setlist, the reorder included, leaves the rows of
    all other setlists alone: their entries (given that entry ids are
    unique), their blocks and their setlist rows are the same, in the same
    order. *)
Theorem other_setlists_untouched
  (sv : services) (db : DB) (user id : string) (req : request) :
  NoDup (map SetlistSong.id (setlist_songs db)) ->
  let db' := snd (handle sv db user (OnSetlist id req)) in
  filter (fun e => negb (SetlistSong.setlist_id e =? id)%string) (setlist_songs db')
  = filter (fun e => negb (SetlistSong.setlist_id e =? id)%string) (setlist_songs db)
  /\ filter (fun b => negb (Block.setlist_id b =? id)%string) (blocks db')
     = filter (fun b => negb (Block.setlist_id b =? id)%string) (blocks db)
  /\ (forall pk, pk <> id ->
                 Setlist.findByPk pk (setlists db') = Setlist.findByPk pk (setlists db)).
Proof.
  intros Hnd. simpl.
  assert (Hfilter2 : forall {A : Type} (f : A -> bool) (l : list A),
             filter f (filter f l) = filter f l).
  { intros A f l. apply filter_all_true. intros x Hx. now apply filter_In in Hx. }
  destruct req; simpl; try (now repeat split).
  - unfold updateSetlist.
    destruct (Setlist.findByPk id (setlists db)) as [s|] eqn:Hfind; [|now repeat split].
    destruct (admin_denied db user s) as [[|]|]; try (now repeat split).
    destruct (name_changed _ s && negb (sv_notEmpty sv _)); [now repeat split|]. simpl.
    split; [reflexivity|]. split; [reflexivity|].
    intros pk Hne. apply Setlist_findByPk_save_other. simpl.
    rewrite (Setlist_findByPk_id _ _ _ Hfind). exact Hne.
  - unfold deleteSetlist.
    destruct (Setlist.findByPk id (setlists db)) as [s|] eqn:Hfind; [|now repeat split].
    destruct (admin_denied db user s) as [[|]|]; try (now repeat split). simpl.
    pose proof (Setlist_findByPk_id _ _ _ Hfind) as Hid. rewrite Hid.
    split; [apply Hfilter2|]. split; [apply Hfilter2|].
    intros pk Hne. apply Setlist_findByPk_destroy_other. congruence.
  - unfold addSongToSetlist.
    destruct (validate_add (sv_isUUID sv) b) as [[sid p]|]; [|now repeat split].
    destruct (Setlist.findByPk id (setlists db)) as [s|] eqn:Hfind; [|now repeat split].
    destruct (member_denied db user s) as [[|]|]; try (now repeat split).
    destruct (Song.findByPk sid (songs db)); [|now repeat split].
    destruct (invalid_block db id (ab_block_id b)); [now repeat split|]. simpl.
    split; [|split; [reflexivity|]].
    + unfold SetlistSong.create. rewrite filter_app. simpl.
      rewrite String.eqb_refl. simpl. apply app_nil_r.
    + intros pk Hne. apply Setlist_findByPk_save_other.
      rewrite (Setlist_findByPk_id _ _ _ Hfind). exact Hne.
  - unfold removeSongFromSetlist.
    destruct (Setlist.findByPk id (setlists db)) as [s|] eqn:Hfind; [|now repeat split].
    destruct (member_denied db user s) as [[|]|]; try (now repeat split).
    destruct (SetlistSong.findOne pick id songId (setlist_songs db)) as [e|] eqn:He;
      [|now repeat split]. simpl.
    apply SetlistSong_findOne_spec in He. destruct He as (Hin & He & _).
    split; [|split; [reflexivity|]].
    + unfold SetlistSong.destroy.
      induction (setlist_songs db) as [|x l IH]; simpl; [reflexivity|].
      assert (Hnd' : NoDup (map SetlistSong.id l)) by (inversion Hnd; assumption).
      destruct (String.eqb_spec (SetlistSong.id x) (SetlistSong.id e)) as [E | E]; simpl.
      * assert (x = e).
        { apply (NoDup_map_In_inj SetlistSong.id (x :: l)); simpl; auto. }
        subst x. rewrite He, String.eqb_refl. simpl.
        destruct Hin as [_ | Hin].
        -- assert (Hnotin : ~ In (SetlistSong.id e) (map SetlistSong.id l))
             by (inversion Hnd; assumption).
           f_equal. apply filter_all_true. intros y Hy.
           apply negb_true_iff, String.eqb_neq. intros E'. apply Hnotin.
           rewrite <- E'. now apply in_map.
        -- exfalso. inversion Hnd as [|? ? Hnotin _]; subst.
           apply Hnotin. now apply in_map.
      * destruct Hin as [-> | Hin]; [congruence|].
        rewrite (IH Hnd' Hin). reflexivity.
    + intros pk Hne. apply Setlist_findByPk_save_other.
      rewrite (Setlist_findByPk_id _ _ _ Hfind). exact Hne.
  - rewrite reorder_store. now repeat split.
Qed.

Lemma other_setlists_untouched_witness :
  filter (fun e => negb (SetlistSong.setlist_id e =? "S1")%string)
    (setlist_songs (snd (handle plain_services db_two_setlists "U1"
                           (OnSetlist "S1" (RemoveSongFromSetlist "songA" 0 3)))))
  = [G1].
Proof.
  destruct (other_setlists_untouched plain_services db_two_setlists "U1" "S1"
              (RemoveSongFromSetlist "songA" 0 3)) as (H & _).
  - repeat constructor; simpl; intuition discriminate.
  - exact H.
Defined.

(** ** The detail of [getSetlistById] *)

(** X18: For the creator of a setlist, and for everyone when the setlist is
    public, get-by-id and list-songs both answer 200.  The detail of
    get-by-id holds every block of the setlist, each with exactly the
    stored entries whose [block_id] is the id of the block; list-songs
    holds every entry of the setlist.  An entry without a block is
    therefore in the answer of list-songs and under no block of the
    detail. *)
Theorem getSetlistById_groups_by_block
  (db : DB) (user id : string) (s : Setlist.t) :
  Setlist.findByPk id (setlists db) = Some s ->
  Setlist.created_by s = user \/ Setlist.is_public s = true ->
  exists bs l,
    getSetlistById db user id = ok (JSetlistDetail s (include_band db s) bs)
    /\ getSetlistSongs db user id = ok (JSetlistSongs l)
    /\ (forall b es, In (b, es) bs ->
           In b (blocks db)
           /\ Block.setlist_id b = id
           /\ (forall e, In e es <->
                         In e (setlist_songs db)
                         /\ SetlistSong.block_id e = Some (Block.id b)))
    /\ (forall b, In b (blocks db) -> Block.setlist_id b = id -> exists es, In (b, es) bs)
    /\ (forall e, In e l <-> In e (setlist_songs db) /\ SetlistSong.setlist_id e = id)
    /\ (forall e, SetlistSong.block_id e = None ->
                  forall b es, In (b, es) bs -> ~ In e es).
Proof.
  intros Hfind Hacc.
  pose proof (Setlist_findByPk_id _ _ _ Hfind) as Hid.
  exists (include_blocks db s), (SetlistSong.findAll_ordered id (setlist_songs db)).
  assert (Hgroups : forall b es, In (b, es) (include_blocks db s) ->
             In b (blocks db)
             /\ Block.setlist_id b = id
             /\ (forall e, In e es <->
                           In e (setlist_songs db)
                           /\ SetlistSong.block_id e = Some (Block.id b))).
  { intros b es Hin. unfold include_blocks in Hin. apply in_map_iff in Hin.
    destruct Hin as (b0 & Heq & Hb0). injection Heq as -> <-.
    apply filter_In in Hb0. destruct Hb0 as [Hb Hsl]. apply String.eqb_eq in Hsl.
    split; [exact Hb|]. split; [congruence|].
    intros e. rewrite filter_In. unfold opt_eqb.
    destruct (SetlistSong.block_id e) as [x|].
    - rewrite String.eqb_eq. split; intros [H1 H2]; split; congruence.
    - split; intros [H1 H2]; discriminate. }
  split; [|split; [|split; [exact Hgroups|split; [|split]]]].
  - unfold getSetlistById, hasAccess_byId. rewrite Hfind.
    destruct Hacc as [Hc | Hp].
    + apply String.eqb_eq in Hc. now rewrite Hc.
    + rewrite Hp. now destruct (Setlist.created_by s =? user)%string.
  - now apply (getSetlistSongs_listing db user id s).
  - intros b Hb Hsl. eexists. unfold include_blocks. apply in_map_iff.
    exists b. split; [reflexivity|]. apply filter_In. split; [exact Hb|].
    apply String.eqb_eq. congruence.
  - intros e. unfold SetlistSong.findAll_ordered. split.
    + intros He.
      apply (Permutation_in _ (Permutation_sym (order_by_position_perm _))) in He.
      apply filter_In in He. now rewrite String.eqb_eq in He.
    + intros [He Hsl].
      apply (Permutation_in _ (order_by_position_perm _)).
      apply filter_In. now rewrite String.eqb_eq.
  - intros e Hnone b es Hin He.
    destruct (Hgroups b es Hin) as (_ & _ & Hes). apply Hes in He. destruct He as [_ He].
    congruence.
Qed.

Lemma getSetlistById_groups_by_block_witness :
  exists bs l,
    getSetlistById db_band "U1" "S2" = ok (JSetlistDetail S2 (include_band db_band S2) bs)
    /\ getSetlistSongs db_band "U1" "S2" = ok (JSetlistSongs l)
    /\ In F1 l
    /\ (forall b es, In (b, es) bs -> ~ In F1 es).
Proof.
  destruct (getSetlistById_groups_by_block db_band "U1" "S2" S2 eq_refl
              (or_introl eq_refl)) as (bs & l & H1 & H2 & _ & _ & H3 & H4).
  exists bs, l. split; [exact H1|]. split; [exact H2|]. split.
  - apply H3. split; [simpl; auto | reflexivity].
  - apply (H4 F1). reflexivity.
Defined.

(** * Properties of the client *)

(** ** The reducer *)

(** X19: The loading protocol of the slice.  A pending action sets [isLoading]
    and clears [error]; a rejected one clears [isLoading] and records its
    message; both leave setlists, current setlist and songs alone.  A
    fulfilled action clears [isLoading] but keeps [error] as it was, so
    the message of an earlier failure survives a later success. *)
Theorem reducer_loading_protocol (s : Slice.SetlistsState) (a : Slice.action) :
  let s' := Slice.reducer s a in
  match kind_of a with
  | Pending =>
      Slice.isLoading s' = true /\ Slice.error s' = None
      /\ Slice.setlists s' = Slice.setlists s
      /\ Slice.currentSetlist s' = Slice.currentSetlist s
      /\ Slice.setlistSongs s' = Slice.setlistSongs s
  | Rejected e =>
      Slice.isLoading s' = false /\ Slice.error s' = Some e
      /\ Slice.setlists s' = Slice.setlists s
      /\ Slice.currentSetlist s' = Slice.currentSetlist s
      /\ Slice.setlistSongs s' = Slice.setlistSongs s
  | Fulfilled => Slice.isLoading s' = false /\ Slice.error s' = Slice.error s
  | Plain => Slice.setlistSongs s' = []  /\ Slice.currentSetlist s' = None
  end.
Proof.
  destruct a as [| |p|p|p|p|p|p|p|p|p]; simpl; try (now repeat split);
    destruct p as [|x|e]; simpl; try (now repeat split).
  - destruct (Slice.current_is s x); now split.
  - destruct x. now split.
Qed.

Lemma client_insert_sorted_perm (e : Slice.SetlistSong) (l : list Slice.SetlistSong) :
  Permutation (e :: l) (Slice.insert_sorted e l).
Proof.
  induction l as [|x l IH]; simpl.
  - apply Permutation_refl.
  - destruct (Slice.position e <=? Slice.position x).
    + apply Permutation_refl.
    + eapply perm_trans; [apply perm_swap|]. now apply perm_skip.
Qed.

Lemma client_sort_perm (l : list Slice.SetlistSong) :
  Permutation l (Slice.sort_by_position l).
Proof.
  induction l as [|x l IH]; simpl.
  - apply perm_nil.
  - eapply perm_trans; [apply perm_skip, IH|]. apply client_insert_sorted_perm.
Qed.

Lemma client_insert_sorted_sorted (e : Slice.SetlistSong) (l : list Slice.SetlistSong) :
  StronglySorted client_position_le l ->
  StronglySorted client_position_le (Slice.insert_sorted e l).
Proof.
  induction 1 as [|x l Hs IH Hall]; simpl.
  - repeat constructor.
  - destruct (Z.leb_spec (Slice.position e) (Slice.position x)) as [E | E].
    + constructor; [now constructor|].
      constructor; [exact E|].
      eapply Forall_impl; [|exact Hall].
      unfold client_position_le. intros y Hy. lia.
    + constructor; [exact IH|].
      eapply Permutation_Forall; [apply client_insert_sorted_perm|].
      constructor; [unfold client_position_le; lia | exact Hall].
Qed.

Lemma client_sort_sorted (l : list Slice.SetlistSong) :
  StronglySorted client_position_le (Slice.sort_by_position l).
Proof.
  induction l as [|x l IH]; simpl.
  - constructor.
  - now apply client_insert_sorted_sorted.
Qed.

(** X20: When add-song is fulfilled the songs of the client are in ascending
    position, whatever order they had before, and are the old songs plus
    the payload; setlists and current setlist stay. *)
Theorem reducer_add_sorts (s : Slice.SetlistsState) (e : Slice.SetlistSong) :
  let s' := Slice.reducer s (Slice.addSongToSetlist (Slice.fulfilled e)) in
  StronglySorted client_position_le (Slice.setlistSongs s')
  /\ Permutation (e :: Slice.setlistSongs s) (Slice.setlistSongs s')
  /\ Slice.setlists s' = Slice.setlists s
  /\ Slice.currentSetlist s' = Slice.currentSetlist s.
Proof.
  simpl. split; [apply client_sort_sorted|]. split; [|now split].
  eapply perm_trans; [apply Permutation_cons_append|]. apply client_sort_perm.
Qed.

Lemma replace_first_ids (p : Slice.Setlist) (l : list Slice.Setlist) :
  map Slice.sl_id (Slice.replace_first p l) = map Slice.sl_id l.
Proof.
  induction l as [|x l IH]; simpl; [reflexivity|].
  destruct (String.eqb_spec (Slice.sl_id x) (Slice.sl_id p)) as [E | E]; simpl.
  - now rewrite E.
  - now rewrite IH.
Qed.

Lemma replace_first_absent (p : Slice.Setlist) (l : list Slice.Setlist) :
  ~ In (Slice.sl_id p) (map Slice.sl_id l) -> Slice.replace_first p l = l.
Proof.
  induction l as [|x l IH]; simpl; intros H; [reflexivity|].
  destruct (String.eqb_spec (Slice.sl_id x) (Slice.sl_id p)) as [E | E].
  - exfalso. apply H. now left.
  - rewrite IH; [reflexivity | tauto].
Qed.

Lemma replace_first_present (p : Slice.Setlist) (l : list Slice.Setlist) :
  In (Slice.sl_id p) (map Slice.sl_id l) -> In p (Slice.replace_first p l).
Proof.
  induction l as [|x l IH]; simpl; intros H; [destruct H|].
  destruct (String.eqb_spec (Slice.sl_id x) (Slice.sl_id p)) as [E | E].
  - now left.
  - right. apply IH. destruct H as [H | H]; [congruence | exact H].
Qed.

(** X21: When update-setlist is fulfilled the list of setlists keeps its length
    and its ids in order; the payload is in the list afterwards exactly
    when a setlist with its id was listed (otherwise the list is unchanged
    and the payload is dropped).  The current setlist is replaced by the
    payload if it has the id of the payload, and is otherwise what it
    was: a client that shows no setlist shows none afterwards.  The songs
    stay. *)
Theorem reducer_update_replaces_in_place (s : Slice.SetlistsState) (p : Slice.Setlist) :
  let s' := Slice.reducer s (Slice.updateSetlist (Slice.fulfilled p)) in
  map Slice.sl_id (Slice.setlists s') = map Slice.sl_id (Slice.setlists s)
  /\ (In (Slice.sl_id p) (map Slice.sl_id (Slice.setlists s)) -> In p (Slice.setlists s'))
  /\ (~ In (Slice.sl_id p) (map Slice.sl_id (Slice.setlists s)) ->
      Slice.setlists s' = Slice.setlists s)
  /\ Slice.currentSetlist s'
     = match Slice.currentSetlist s with
       | Some c => Some (if (Slice.sl_id c =? Slice.sl_id p)%string then p else c)
       | None => None
       end
  /\ Slice.setlistSongs s' = Slice.setlistSongs s.
Proof.
  simpl. split; [apply replace_first_ids|].
  split; [apply replace_first_present|]. split; [apply replace_first_absent|].
  split; [|reflexivity].
  unfold Slice.current_is. destruct (Slice.currentSetlist s) as [c|]; [|reflexivity].
  now destruct (Slice.sl_id c =? Slice.sl_id p)%string.
Qed.

Lemma reducer_update_replaces_in_place_witness :
  Slice.setlists
    (Slice.reducer (Slice.mkState [Slice.mkSetlist "S1" "Gig" None "U1" false] None [] false None)
       (Slice.updateSetlist (Slice.fulfilled (Slice.mkSetlist "S9" "New" None "U1" false))))
  = [Slice.mkSetlist "S1" "Gig" None "U1" false].
Proof.
  destruct (reducer_update_replaces_in_place
              (Slice.mkState [Slice.mkSetlist "S1" "Gig" None "U1" false] None [] false None)
              (Slice.mkSetlist "S9" "New" None "U1" false)) as (_ & _ & H & _).
  apply H. simpl. intros [H' | []]. discriminate H'.
Defined.

(** ** Client and server, call by call *)

Lemma find_app_l {A : Type} (f : A -> bool) (l l' : list A) :
  find f (l ++ l') = match find f l with Some x => Some x | None => find f l' end.
Proof.
  induction l as [|x l IH]; simpl; [reflexivity|].
  now destruct (f x).
Qed.

Lemma Permutation_filter_both {A : Type} (f : A -> bool) (l l' : list A) :
  Permutation l l' -> Permutation (filter f l) (filter f l').
Proof.
  induction 1 as [|x l l' _ IH|x y l|l l' l'' _ IH1 _ IH2]; simpl.
  - constructor.
  - destruct (f x); [now constructor | exact IH].
  - destruct (f x), (f y); try apply Permutation_refl. apply perm_swap.
  - eapply perm_trans; eassumption.
Qed.

Lemma StronglySorted_filter {A : Type} (R : A -> A -> Prop) (f : A -> bool) (l : list A) :
  StronglySorted R l -> StronglySorted R (filter f l).
Proof.
  induction 1 as [|x l Hs IH Hall]; simpl; [constructor|].
  destruct (f x); [|exact IH].
  constructor; [exact IH|].
  apply Forall_forall. intros y Hy. apply filter_In in Hy.
  eapply Forall_forall in Hall; [exact Hall | tauto].
Qed.

Lemma sorted_to_client (l : list SetlistSong.t) :
  StronglySorted position_le l -> StronglySorted client_position_le (map to_client l).
Proof.
  induction 1 as [|x l Hs IH Hall]; simpl; constructor; [exact IH|].
  apply Forall_forall. intros y Hy. apply in_map_iff in Hy.
  destruct Hy as (e & <- & He). eapply Forall_forall in Hall; [exact Hall | exact He].
Qed.

Lemma filter_song_to_client (songId : string) (l : list SetlistSong.t) :
  filter (fun x => negb (Slice.song_id x =? songId)%string) (map to_client l)
  = map to_client (filter (fun e => negb (SetlistSong.song_id e =? songId)%string) l).
Proof.
  induction l as [|e l IH]; simpl; [reflexivity|].
  destruct (SetlistSong.song_id e =? songId)%string; simpl; now rewrite IH.
Qed.

Lemma filter_filter_and {A : Type} (f g : A -> bool) (l : list A) :
  filter f (filter g l) = filter (fun x => g x && f x) l.
Proof.
  induction l as [|x l IH]; simpl; [reflexivity|].
  destruct (g x); simpl; [|exact IH].
  destruct (f x); now rewrite IH.
Qed.

(** The listing of a setlist after the one entry of a song was destroyed,
    seen from the client: the old listing without the entries of the
    song. *)
Lemma listing_after_remove (id songId : string) (tbl : list SetlistSong.t)
      (e : SetlistSong.t) :
  NoDup (map SetlistSong.id tbl) ->
  (forall x y, In x tbl -> In y tbl ->
               SetlistSong.setlist_id x = id -> SetlistSong.setlist_id y = id ->
               SetlistSong.song_id x = songId -> SetlistSong.song_id y = songId -> x = y) ->
  In e tbl -> SetlistSong.setlist_id e = id -> SetlistSong.song_id e = songId ->
  filter (fun x => (SetlistSong.setlist_id x =? id)%string) (SetlistSong.destroy e tbl)
  = filter (fun x => negb (SetlistSong.song_id x =? songId)%string)
      (filter (fun x => (SetlistSong.setlist_id x =? id)%string) tbl).
Proof.
  intros Hnd Honce Hin Hsl Hsong. unfold SetlistSong.destroy.
  rewrite !filter_filter_and.
  apply filter_ext_in. intros x Hx.
  destruct (String.eqb_spec (SetlistSong.setlist_id x) id) as [Ex | Ex]; simpl;
    [|now rewrite andb_false_r].
  rewrite andb_true_r. f_equal.
  destruct (String.eqb_spec (SetlistSong.id x) (SetlistSong.id e)) as [Ei | Ei];
    destruct (String.eqb_spec (SetlistSong.song_id x) songId) as [Es | Es]; trivial.
  - exfalso. apply Es.
    rewrite (NoDup_map_In_inj SetlistSong.id tbl x e Hnd Hx Hin Ei). exact Hsong.
  - exfalso. apply Ei. now rewrite (Honce x e Hx Hin Ex Hsl Es Hsong).
Qed.

(** X22: Client and server stay in step.  If the songs of the client are the
    listing of the server (in ascending position) before a fetch, add,
    remove or reorder goes through thunk, handler and reducer, they are so
    afterwards, whether the server accepted or refused the call.  For an
    add the entry id has to be fresh; for a remove the entry ids have to
    be unique and the song on the setlist at most once. *)
Theorem client_round_keeps_sync
  (sv : services) (db : DB) (user id : string) (c : client_call)
  (st : Slice.SetlistsState) :
  in_sync db id st ->
  round_ok db id c ->
  exists st',
    snd (client_round sv db user id c st) = Some st'
    /\ in_sync (fst (client_round sv db user id c st)) id st'.
Proof.
  intros Hsync Hok. unfold client_round.
  destruct c as [|b uuid now|songId pick now|songs_body now]; simpl.
  - (* fetch *)
    unfold getSetlistSongs.
    destruct (Setlist.findByPk id (setlists db)) as [s|];
      [|eexists; split; [reflexivity | exact Hsync]].
    destruct (hasAccess db user s) as [[|]|]; simpl;
      try (eexists; split; [reflexivity | exact Hsync]).
    eexists. split; [reflexivity|]. split; simpl.
    + apply Permutation_refl.
    + apply sorted_to_client, order_by_position_sorted.
  - (* add *)
    unfold addSongToSetlist.
    destruct (validate_add (sv_isUUID sv) b) as [[sid p]|];
      [|eexists; split; [reflexivity | exact Hsync]].
    destruct (Setlist.findByPk id (setlists db)) as [s|];
      [|eexists; split; [reflexivity | exact Hsync]].
    destruct (member_denied db user s) as [[|]|];
      try (eexists; split; [reflexivity | exact Hsync]).
    destruct (Song.findByPk sid (songs db));
      [|eexists; split; [reflexivity | exact Hsync]].
    destruct (invalid_block db id (ab_block_id b));
      [eexists; split; [reflexivity | exact Hsync]|].
    simpl in Hok. simpl.
    set (row := SetlistSong.mk uuid id sid p _ _).
    assert (Hrow : SetlistSong.findByPk uuid (SetlistSong.create row (setlist_songs db))
                   = Some row).
    { unfold SetlistSong.findByPk, SetlistSong.create. rewrite find_app_l.
      unfold SetlistSong.findByPk in Hok. rewrite Hok. simpl.
      now rewrite String.eqb_refl. }
    rewrite Hrow. simpl. eexists. split; [reflexivity|].
    destruct Hsync as [Hperm Hsorted]. split; simpl.
    + unfold SetlistSong.findAll_ordered, SetlistSong.create.
      rewrite filter_app. simpl. rewrite String.eqb_refl.
      eapply perm_trans; [|apply client_sort_perm].
      eapply perm_trans;
        [apply Permutation_map, Permutation_sym, order_by_position_perm|].
      rewrite map_app. simpl. apply Permutation_app_tail.
      eapply perm_trans; [|exact Hperm].
      apply Permutation_map, order_by_position_perm.
    + apply client_sort_sorted.
  - (* remove *)
    unfold removeSongFromSetlist.
    destruct (Setlist.findByPk id (setlists db)) as [s|];
      [|eexists; split; [reflexivity | exact Hsync]].
    destruct (member_denied db user s) as [[|]|];
      try (eexists; split; [reflexivity | exact Hsync]).
    destruct (SetlistSong.findOne pick id songId (setlist_songs db)) as [e|] eqn:He;
      [|eexists; split; [reflexivity | exact Hsync]].
    simpl. eexists. split; [reflexivity|].
    apply SetlistSong_findOne_spec in He. destruct He as (Hin & Hsl & Hsong).
    destruct Hok as [Hnd Honce]. destruct Hsync as [Hperm Hsorted]. split; simpl.
    + unfold SetlistSong.findAll_ordered.
      rewrite (listing_after_remove id songId _ e Hnd Honce Hin Hsl Hsong).
      eapply perm_trans; [|apply Permutation_filter_both, Hperm].
      rewrite filter_song_to_client. apply Permutation_map.
      eapply perm_trans; [apply Permutation_sym, order_by_position_perm|].
      apply Permutation_filter_both, order_by_position_perm.
    + now apply StronglySorted_filter.
  - (* reorder *)
    rewrite reorder_cases.
    destruct (songs_rejected songs_body);
      [eexists; split; [reflexivity | exact Hsync]|].
    destruct (Setlist.findByPk id (setlists db)) as [s|];
      [|eexists; split; [reflexivity | exact Hsync]].
    destruct (member_denied db user s) as [[|]|];
      eexists; (split; [reflexivity | exact Hsync]).
Qed.

Lemma client_round_keeps_sync_witness :
  exists st',
    snd (client_round plain_services db_public "U1" "S5" (CRemoveSong "songA" 0 3) client_S5)
    = Some st'
    /\ in_sync
         (fst (client_round plain_services db_public "U1" "S5" (CRemoveSong "songA" 0 3)
                 client_S5)) "S5" st'.
Proof.
  apply (client_round_keeps_sync plain_services db_public "U1" "S5" (CRemoveSong "songA" 0 3)
           client_S5).
  - split; simpl.
    + apply Permutation_refl.
    + repeat constructor.
  - split.
    + simpl. repeat constructor. intros [].
    + intros x y [<- | []] [<- | []] _ _ _ _. reflexivity.
Defined.

Lemma not_2xx_unsuccessful (r : response) :
  is_2xx r = false -> status r <> 200 /\ status r <> 201.
Proof.
  unfold is_2xx. intros H. split; intros E; rewrite E in H; discriminate.
Qed.

(** X23: A call the server refuses changes neither side: the store is as it
    was, and the client keeps its setlists and songs, stops loading and
    records as error the [msg] of the answer, or the fixed text of the
    thunk when the answer has none (the 400 of the route checks, the 500
    of a thrown exception). *)
Theorem refused_call_changes_neither_side
  (sv : services) (db : DB) (user id : string) (c : client_call)
  (st : Slice.SetlistsState) :
  let r := handle sv db user (OnSetlist id (request_of c)) in
  is_2xx (fst r) = false ->
  client_round sv db user id c st
  = (db,
     Some (Slice.mkState (Slice.setlists st) (Slice.currentSetlist st)
             (Slice.setlistSongs st) false
             (Some (error_message (fst r) (fallback_of c))))).
Proof.
  intros r H. subst r. unfold client_round.
  destruct (not_2xx_unsuccessful _ H) as [H200 H201].
  rewrite (handle_unsuccessful sv db user _ H200 H201). f_equal.
  destruct c; simpl in *.
  - unfold fetchSetlistSongs_thunk. now rewrite H.
  - unfold addSongToSetlist_thunk. now rewrite H.
  - unfold removeSongFromSetlist_thunk. now rewrite H.
  - unfold reorderSetlistSongs_thunk. now rewrite H.
Qed.

Lemma refused_call_changes_neither_side_witness :
  client_round plain_services db_public "U7" "S5" (CRemoveSong "songA" 0 3) client_S5
  = (db_public,
     Some (Slice.mkState (Slice.setlists client_S5) (Slice.currentSetlist client_S5)
             (Slice.setlistSongs client_S5) false
             (Some "You do not have permission to update this setlist")))
  /\ snd (client_round plain_services db_public "U1" "S5"
            (CAddSong (mkAddBody None (Some 1) None None) "P2" 3) client_S5)
     = Some (Slice.mkState (Slice.setlists client_S5) (Slice.currentSetlist client_S5)
               (Slice.setlistSongs client_S5) false
               (Some "Failed to add song to setlist")).
Proof.
  split.
  - apply (refused_call_changes_neither_side plain_services db_public "U7" "S5"
             (CRemoveSong "songA" 0 3) client_S5). reflexivity.
  - rewrite (refused_call_changes_neither_side plain_services db_public "U1" "S5"
               (CAddSong (mkAddBody None (Some 1) None None) "P2" 3) client_S5);
      reflexivity.
Defined.

(** X24: Deleting a setlist from the client.  When the server answers 200,
    neither the server nor the list of the client holds a setlist with
    that id any more, and a client that was showing it shows no setlist
    and no songs.  When the server refuses, both sides are as before and
    the client records the message. *)
Theorem delete_round
  (db : DB) (user id : string) (st : Slice.SetlistsState) :
  let r := deleteSetlist db user id in
  let st' := Slice.reducer (Slice.reducer st (Slice.deleteSetlist Slice.pending))
               (deleteSetlist_thunk id (fst r)) in
  (status (fst r) = 200 ->
   Setlist.findByPk id (setlists (snd r)) = None
   /\ ~ In id (map Slice.sl_id (Slice.setlists st'))
   /\ (forall x, In x (Slice.setlists st) -> Slice.sl_id x <> id -> In x (Slice.setlists st'))
   /\ (Slice.current_is st id = true ->
       Slice.currentSetlist st' = None /\ Slice.setlistSongs st' = []))
  /\ (status (fst r) <> 200 ->
      snd r = db
      /\ st' = Slice.mkState (Slice.setlists st) (Slice.currentSetlist st)
                 (Slice.setlistSongs st) false
                 (Some (error_message (fst r) "Failed to delete setlist"))).
Proof.
  simpl. unfold deleteSetlist.
  destruct (Setlist.findByPk id (setlists db)) as [s|] eqn:Hfind;
    [|split; [discriminate | intros _; split; reflexivity]].
  destruct (admin_denied db user s) as [[|]|];
    try (split; [discriminate | intros _; split; reflexivity]).
  split; [intros _ | intros H; now elim H].
  pose proof (Setlist_findByPk_id _ _ _ Hfind) as Hid.
  unfold deleteSetlist_thunk. simpl.
  assert (Hkept : forall l, ~ In id (map Slice.sl_id
                     (filter (fun x => negb (Slice.sl_id x =? id)%string) l))).
  { intros l Hin. apply in_map_iff in Hin. destruct Hin as (x & Hx & Hin).
    apply filter_In in Hin. destruct Hin as [_ Hne].
    apply negb_true_iff, String.eqb_neq in Hne. congruence. }
  split; [|split; [|split]].
  - unfold Setlist.findByPk, Setlist.destroy.
    destruct (find _ (filter _ (setlists db))) as [x|] eqn:E; [|reflexivity].
    apply find_some in E. destruct E as [Hin Hx].
    apply filter_In in Hin. destruct Hin as [_ Hn].
    rewrite Hid, Hx in Hn. discriminate.
  - unfold Slice.current_is. simpl.
    destruct (Slice.currentSetlist st) as [cur|]; [|apply Hkept].
    destruct (Slice.sl_id cur =? id)%string; apply Hkept.
  - intros x Hx Hne.
    assert (Hin : In x (filter (fun y => negb (Slice.sl_id y =? id)%string)
                          (Slice.setlists st))).
    { apply filter_In. split; [exact Hx|]. now apply negb_true_iff, String.eqb_neq. }
    unfold Slice.current_is. simpl.
    destruct (Slice.currentSetlist st) as [cur|]; [|exact Hin].
    destruct (Slice.sl_id cur =? id)%string; exact Hin.
  - unfold Slice.current_is. simpl.
    destruct (Slice.currentSetlist st) as [cur|]; [|discriminate].
    intros ->. now split.
Qed.

Lemma delete_round_witness :
  Setlist.findByPk "S5" (setlists (snd (deleteSetlist db_public "U1" "S5"))) = None
  /\ Slice.setlistSongs
       (Slice.reducer (Slice.reducer client_S5 (Slice.deleteSetlist Slice.pending))
          (deleteSetlist_thunk "S5" (fst (deleteSetlist db_public "U1" "S5")))) = [].
Proof.
  destruct (delete_round db_public "U1" "S5" client_S5) as [H _].
  destruct (H eq_refl) as (H1 & _ & _ & H4).
  split; [exact H1|]. now apply H4.
Defined.

(** ** The list component *)

Lemma SetlistListView_run_app (p : SetlistListView.props) (st : SetlistListView.state)
      (evs more : list SetlistListView.event) :
  SetlistListView.run p st (evs ++ more)
  = (fst (SetlistListView.run p (fst (SetlistListView.run p st evs)) more),
     snd (SetlistListView.run p st evs)
     ++ snd (SetlistListView.run p (fst (SetlistListView.run p st evs)) more)).
Proof.
  revert st. induction evs as [|ev evs IH]; intros st; simpl.
  - now destruct (SetlistListView.run p st more).
  - destruct (SetlistListView.step p st ev) as [st1 out1].
    rewrite IH.
    destruct (SetlistListView.run p st1 evs) as [st2 out2]. simpl.
    now rewrite app_assoc.
Qed.

Lemma SetlistListView_selected (p : SetlistListView.props) (st : SetlistListView.state)
      (evs : list SetlistListView.event) :
  SetlistListView.selectedSetlist (fst (SetlistListView.run p st evs))
  = SetlistListView.last_opened evs (SetlistListView.selectedSetlist st).
Proof.
  revert st. induction evs as [|ev evs IH]; intros st; simpl; [reflexivity|].
  destruct (SetlistListView.step p st ev) as [st1 out1] eqn:Hstep.
  specialize (IH st1).
  destruct (SetlistListView.run p st1 evs) as [st2 out2]. simpl in *.
  rewrite IH. destruct ev; simpl in Hstep; injection Hstep as <- _; reflexivity.
Qed.

(** X25: After any sequence of events, confirming the delete dialog dispatches
    the delete for the setlist whose menu was opened last, also when the
    menu was closed or another item was clicked since; if no menu was ever
    opened, nothing is dispatched.  No other handler dispatches a delete. *)
Theorem confirm_deletes_last_opened
  (p : SetlistListView.props) (evs : list SetlistListView.event) :
  snd (SetlistListView.run p SetlistListView.initial
         (evs ++ [SetlistListView.handleDeleteConfirm]))
  = snd (SetlistListView.run p SetlistListView.initial evs)
    ++ match SetlistListView.last_opened evs None with
       | Some s => [SetlistListView.DispatchDeleteSetlist (Slice.sl_id s)]
       | None => []
       end
  /\ (~ In SetlistListView.handleDeleteConfirm evs ->
      forall id, ~ In (SetlistListView.DispatchDeleteSetlist id)
                   (snd (SetlistListView.run p SetlistListView.initial evs))).
Proof.
  split.
  - rewrite SetlistListView_run_app. simpl. f_equal.
    rewrite SetlistListView_selected. simpl.
    destruct (SetlistListView.last_opened evs None); reflexivity.
  - generalize SetlistListView.initial as st.
    induction evs as [|ev evs IH]; intros st Hno id; simpl; [tauto|].
    destruct (SetlistListView.step p st ev) as [st1 out1] eqn:Hstep.
    specialize (IH st1).
    destruct (SetlistListView.run p st1 evs) as [st2 out2]. simpl in *.
    intros Hin. apply in_app_iff in Hin. destruct Hin as [Hin | Hin].
    + destruct ev; simpl in Hstep; injection Hstep as <- <-; simpl in Hin;
        try (now destruct Hin);
        try (unfold SetlistListView.call_if in Hin;
             destruct (SetlistListView.selectedSetlist st);
             [match type of Hin with
              | In _ (if ?g then _ else _) => destruct g
              end; simpl in Hin; intuition discriminate
             | destruct Hin]).
      apply Hno. now left.
    + apply (IH (fun H => Hno (or_intror H)) id Hin).
Qed.

Lemma confirm_deletes_last_opened_witness :
  snd (SetlistListView.run (SetlistListView.mkProps true false false)
         SetlistListView.initial
         ([SetlistListView.handleMenuOpen 1 (Slice.mkSetlist "S1" "Gig" None "U1" false);
           SetlistListView.handleMenuClose;
           SetlistListView.handleMenuOpen 2 (Slice.mkSetlist "S5" "Open mic" None "U1" true);
           SetlistListView.handleDeleteClick]))
  = []
  /\ forall id,
       ~ In (SetlistListView.DispatchDeleteSetlist id)
           (snd (SetlistListView.run (SetlistListView.mkProps true false false)
                   SetlistListView.initial
                   [SetlistListView.handleMenuOpen 1
                      (Slice.mkSetlist "S1" "Gig" None "U1" false);
                    SetlistListView.handleDeleteClick;
                    SetlistListView.handleDeleteCancel])).
Proof.
  split; [reflexivity|].
  destruct (confirm_deletes_last_opened (SetlistListView.mkProps true false false)
              [SetlistListView.handleMenuOpen 1 (Slice.mkSetlist "S1" "Gig" None "U1" false);
               SetlistListView.handleDeleteClick;
               SetlistListView.handleDeleteCancel]) as [_ H].
  apply H. simpl. intuition discriminate.
Defined.

(** X26: The description on a card is never longer than 123 UTF-16 code
    units.  A missing or empty description shows nothing, one of at most
    120 units is shown as it is, and a longer one as its first 120 units
    followed by three dots. *)
Theorem shown_description_bounded (description : option (list N)) :
  match SetlistListView.shown_description description with
  | None => description = None \/ description = Some []
  | Some shown =>
      (length shown <= 123)%nat
      /\ exists d,
           description = Some d
           /\ d <> []
           /\ ((length d <= 120)%nat -> shown = d)
           /\ ((120 < length d)%nat ->
               shown = firstn 120 d ++ SetlistListView.dots
               /\ length shown = 123%nat)
  end.
Proof.
  unfold SetlistListView.shown_description.
  destruct description as [d|]; [|now left].
  destruct d as [|c d]; [now right|].
  assert (Hne : c :: d <> []) by discriminate.
  change (negb (length (c :: d) =? 0)%nat) with true. cbv iota.
  revert Hne. generalize (c :: d). clear c d. intros text Hne.
  destruct (Nat.ltb_spec 120 (length text)) as [Hlong | Hshort].
  - assert (Hlen : length (firstn 120 text ++ SetlistListView.dots) = 123%nat).
    { rewrite length_app, length_firstn.
      change (length SetlistListView.dots) with 3%nat. lia. }
    split; [lia|]. exists text. repeat split; trivial. lia.
  - split; [lia|]. exists text. repeat split; trivial; lia.
Qed.

Lemma shown_description_bounded_witness :
  exists shown,
    SetlistListView.shown_description (Some long_description) = Some shown
    /\ length shown = 123%nat
    /\ SetlistListView.shown_description (Some [71; 105; 103]%N) = Some [71; 105; 103]%N.
Proof.
  pose proof (shown_description_bounded (Some long_description)) as H.
  destruct (SetlistListView.shown_description (Some long_description)) as [shown|] eqn:E.
  - exists shown. split; [reflexivity|].
    destruct H as (_ & d & Hd & _ & _ & Hlong). injection Hd as <-.
    split; [apply Hlong; vm_compute; lia | reflexivity].
  - vm_compute in E. discriminate E.
Defined.

(** * The two access tests *)

(** X27: The access test of [getSetlistById] reads the members of the loaded
    band, the one of list-songs calls [isUserBandMember], which throws.
    For the creator and for a public setlist both answer 200.  For anyone
    else on a private setlist they answer differently unless both answer
    500: list-songs answers 403 for a setlist without a band and 500 for
    one with a band; get-by-id answers 500 when no band row is loaded, and
    otherwise 200 for a member of the band and 403 for a stranger.  Band
    ids are taken to be non-empty. *)
Theorem access_tests_differ (db : DB) (user id : string) (s : Setlist.t) :
  (forall b, Setlist.band_id s = Some b -> truthy b = true) ->
  Setlist.findByPk id (setlists db) = Some s ->
  (Setlist.created_by s = user \/ Setlist.is_public s = true ->
   status (getSetlistById db user id) = 200
   /\ status (getSetlistSongs db user id) = 200)
  /\ (Setlist.created_by s <> user -> Setlist.is_public s = false ->
      status (getSetlistSongs db user id)
      = (if truthy_opt (Setlist.band_id s) then 500 else 403)
      /\ status (getSetlistById db user id)
         = match include_band db s with
           | None => 500
           | Some members =>
               if existsb (fun m => (m =? user)%string) members then 200 else 403
           end
      /\ (status (getSetlistById db user id) = status (getSetlistSongs db user id)
          <-> Setlist.band_id s <> None /\ include_band db s = None)).
Proof.
  intros Hband Hfind. split.
  - intros Hacc. split.
    + unfold getSetlistById, hasAccess_byId. rewrite Hfind.
      destruct Hacc as [Hc | Hp].
      * apply String.eqb_eq in Hc. now rewrite Hc.
      * rewrite Hp. now destruct (Setlist.created_by s =? user)%string.
    + now rewrite (getSetlistSongs_listing db user id s Hfind Hacc).
  - intros Hc Hp.
    assert (Hsongs : status (getSetlistSongs db user id)
                     = if truthy_opt (Setlist.band_id s) then 500 else 403).
    { unfold getSetlistSongs. rewrite Hfind, (other_hasAccess db user s Hc Hp).
      now destruct (truthy_opt (Setlist.band_id s)). }
    assert (Hbyid : status (getSetlistById db user id)
                    = match include_band db s with
                      | None => 500
                      | Some members =>
                          if existsb (fun m => (m =? user)%string) members
                          then 200 else 403
                      end).
    { unfold getSetlistById, hasAccess_byId. rewrite Hfind, Hp.
      apply String.eqb_neq in Hc. rewrite Hc.
      destruct (include_band db s) as [members|]; [|reflexivity].
      now destruct (existsb _ members). }
    split; [exact Hsongs|]. split; [exact Hbyid|].
    rewrite Hsongs, Hbyid.
    destruct (Setlist.band_id s) as [b|] eqn:Hb.
    + unfold truthy_opt. rewrite (Hband b eq_refl).
      destruct (include_band db s) as [members|].
      * destruct (existsb _ members); (split; [discriminate|]); intros [_ H]; discriminate H.
      * split; [intros _; split; [discriminate | reflexivity] | reflexivity].
    + unfold include_band. rewrite Hb. simpl.
      split; [discriminate | intros [H _]; now elim H].
Qed.

Lemma access_tests_differ_witness :
  status (getSetlistSongs db_band "U2" "S2") = 500
  /\ status (getSetlistById db_band "U2" "S2") = 200
  /\ status (getSetlistSongs db_entries "U2" "S1") = 403
  /\ status (getSetlistById db_entries "U2" "S1") = 500.
Proof.
  destruct (access_tests_differ db_band "U2" "S2" S2) as [_ H].
  { intros b Hb. injection Hb as <-. reflexivity. }
  { reflexivity. }
  destruct (H ltac:(discriminate) eq_refl) as (H1 & H2 & _).
  destruct (access_tests_differ db_entries "U2" "S1" S1) as [_ H'].
  { intros b Hb. discriminate Hb. }
  { reflexivity. }
  destruct (H' ltac:(discriminate) eq_refl) as (H3 & H4 & _).
  split; [exact H1|]. split; [exact H2|]. split; [exact H3 | exact H4].
Defined.

